(** * Verification of the intro-to-pytorch notebooks

    Shallow embedding of the code cells of three notebooks:

    - Part 1 (tensors): [activation], the seeded data generation and the two
      formulations of a single neuron's output;
    - Part 3 (training): the inline [nn.Sequential] networks, the autograd
      example [z = mean (x**2)] and the epoch/batch training loop;
    - Part 6 (saving and loading): the checkpoint dictionary, [torch.save],
      [torch.load], [load_state_dict] and [load_checkpoint].

    Tensors hold real numbers: the rounding of floating-point arithmetic is
    not modelled.  A tensor is, as in the framework, a shape with its entries
    in row-major order. *)

From Stdlib Require Import Reals Lra Lia List ZArith String Ascii.
From stdpp Require Import gmap strings list pretty.

Import ListNotations.

Set Warnings "-register-all".

(** ** The framework: tensors and their operations *)

Module Torch.

Record tensor : Type := mk_tensor { shape : list nat; data : list R }.

(** [t.numel()] as computed from a shape. *)
Definition numel (s : list nat) : nat := fold_right Nat.mul 1%nat s.

(** A tensor is well formed when it holds one entry per index. *)
Definition wf (t : tensor) : Prop := length (data t) = numel (shape t).

(** A zero-dimensional tensor: what a full reduction returns. *)
Definition scalar (v : R) : tensor := mk_tensor [] [v].

(** One line of the report of a failed [load_state_dict]. *)
Inductive load_error : Type :=
| size_mismatch (key : string) (from_checkpoint in_model : list nat)
| missing_key_s (keys : list string)
| unexpected_key_s (keys : list string).

(** The exceptions the modelled calls raise. *)
Inductive exception : Type :=
| RuntimeError_size_mismatch (m1 m2 : list nat)
| RuntimeError_grad_of_non_scalar (s : list nat)
| RuntimeError_loading_state_dict (msgs : list load_error)
| RuntimeError_invalid_view (s : list nat)
| ValueError_batch_size (input target : nat)
| IndexError_target_out_of_bounds (target classes : nat)
| IndexError_tuple_index
| ValueError_item (s : list nat)
| ZeroDivisionError
| KeyError (key : string)
| TypeError
| FileNotFoundError (path : string).

Definition result (A : Type) : Type := (exception + A)%type.

Definition ret {A} (a : A) : result A := inr a.
Definition raise {A} (e : exception) : result A := inl e.
Definition bind {A B} (m : result A) (k : A -> result B) : result B :=
  match m with inl e => inl e | inr a => k a end.

Declare Scope result_scope.
Delimit Scope result_scope with result.
Notation "'let*' x ':=' m 'in' k" := (bind m (fun x => k))
  (at level 10, x name, m at level 100, k at level 200) : result_scope.

(** A computation that reads and writes a state of type [W] and may raise;
    the state survives the exception. *)
Definition M (W A : Type) : Type := W -> result A * W.

Definition mret {W A} (a : A) : M W A := fun w => (ret a, w).
Definition lift {W A} (r : result A) : M W A := fun w => (r, w).
Definition mbind {W A B} (m : M W A) (k : A -> M W B) : M W B :=
  fun w => match m w with
           | (inl e, w') => (inl e, w')
           | (inr a, w') => k a w'
           end.

Notation "'let!' x ':=' m 'in' k" := (mbind m (fun x => k))
  (at level 10, x name, m at level 100, k at level 200) : result_scope.

Definition shape_eqb (s1 s2 : list nat) : bool := bool_decide (s1 = s2).

Definition sum_list (xs : list R) : R := fold_right Rplus 0%R xs.

(** [torch.sum(t)]: the sum of all entries, as a zero-dimensional tensor. *)
Definition torch_sum (t : tensor) : tensor := scalar (sum_list (data t)).

Fixpoint zip_with_R (f : R -> R -> R) (xs ys : list R) : list R :=
  match xs, ys with
  | x :: xs', y :: ys' => f x y :: zip_with_R f xs' ys'
  | _, _ => []
  end.

(** Broadcasting of two shapes read from their last dimension on: two
    dimensions go together when they are equal or one of them is 1, and a
    missing dimension goes with any. *)
Fixpoint broadcast_reversed (s1 s2 : list nat) : option (list nat) :=
  match s1, s2 with
  | [], s | s, [] => Some s
  | d1 :: s1', d2 :: s2' =>
      match broadcast_reversed s1' s2' with
      | None => None
      | Some s =>
          if Nat.eqb d1 d2 then Some (d1 :: s)
          else if Nat.eqb d1 1 then Some (d2 :: s)
          else if Nat.eqb d2 1 then Some (d1 :: s)
          else None
      end
  end.

Definition broadcast_shapes (s1 s2 : list nat) : option (list nat) :=
  option_map (@rev nat) (broadcast_reversed (rev s1) (rev s2)).

(** The entries of a tensor of shape [s] repeated to fill the shape [target]
    of as many dimensions, where a dimension of [s] is the target's or is 1;
    and the same for a shape of fewer dimensions. *)
Fixpoint expand_entries (s target : list nat) (xs : list R) : list R :=
  match s, target with
  | d :: s', D :: target' =>
      let n := numel s' in
      if Nat.eqb d D
      then flat_map (fun i => expand_entries s' target'
                                (firstn n (skipn (i * n) xs))) (seq 0 d)
      else flat_map (fun _ => expand_entries s' target' xs) (seq 0 D)
  | _, _ => xs
  end.

Definition expand_to (target s : list nat) (xs : list R) : list R :=
  expand_entries (repeat 1%nat (length target - length s) ++ s) target xs.

(** Entrywise combination of two tensors, each broadcast to their common
    shape. *)
Definition pointwise (f : R -> R -> R) (a b : tensor) : result tensor :=
  match broadcast_shapes (shape a) (shape b) with
  | Some s =>
      ret (mk_tensor s (zip_with_R f (expand_to s (shape a) (data a))
                                     (expand_to s (shape b) (data b))))
  | None => raise (RuntimeError_size_mismatch (shape a) (shape b))
  end.

(** [a * b] and [a + b] on tensors. *)
Definition mul : tensor -> tensor -> result tensor := pointwise Rmult.
Definition add : tensor -> tensor -> result tensor := pointwise Rplus.

(** Entrywise application of a function. *)
Definition map_tensor (f : R -> R) (t : tensor) : tensor :=
  mk_tensor (shape t) (map f (data t)).

(** [-t], [torch.exp(t)], and a Python number combined with a tensor. *)
Definition neg : tensor -> tensor := map_tensor Ropp.
Definition torch_exp : tensor -> tensor := map_tensor exp.
Definition number_add (c : R) : tensor -> tensor := map_tensor (Rplus c).
Definition number_div (c : R) : tensor -> tensor := map_tensor (Rdiv c).
Definition div_number (t : tensor) (c : R) : tensor :=
  map_tensor (fun v => Rdiv v c) t.

(** [t.reshape(s)]: same entries, new shape, when the sizes agree. *)
Definition reshape (t : tensor) (s : list nat) : result tensor :=
  if Nat.eqb (numel s) (numel (shape t))
  then ret (mk_tensor s (data t))
  else raise (RuntimeError_size_mismatch (shape t) s).

(** [torch.mm(a, b)]: the product of an [n x k] and a [k x m] matrix, each
    stored row after row. *)
Definition entry (t : tensor) (cols i j : nat) : R :=
  nth (i * cols + j) (data t) 0%R.

Definition dot (a b : tensor) (k m i j : nat) : R :=
  sum_list (map (fun l => (entry a k i l * entry b m l j)%R) (seq 0 k)).

Definition torch_mm (a b : tensor) : result tensor :=
  match shape a, shape b with
  | [n; k], [k'; m] =>
      if Nat.eqb k k'
      then ret (mk_tensor [n; m]
                  (flat_map (fun i => map (fun j => dot a b k m i j) (seq 0 m))
                            (seq 0 n)))
      else raise (RuntimeError_size_mismatch (shape a) (shape b))
  | _, _ => raise (RuntimeError_size_mismatch (shape a) (shape b))
  end.

(** The random number generator.  [torch.manual_seed] replaces its state by
    one that the seed determines; every draw returns a number and the next
    state. *)
Class Generator (G : Type) : Type := {
  seeded : Z -> G;
  normal : G -> R * G;
  uniform : G -> R * G
}.

Section Random.
Context {G : Type} `{Generator G}.

Definition torch_manual_seed (seed : Z) (g : G) : unit * G :=
  (tt, seeded seed).

Fixpoint draws (sample : G -> R * G) (n : nat) (g : G) : list R * G :=
  match n with
  | O => ([], g)
  | S n' =>
      let (x, g1) := sample g in
      let (xs, g2) := draws sample n' g1 in
      (x :: xs, g2)
  end.

(** [torch.randn(s)]: one draw per entry, in row-major order. *)
Definition torch_randn (s : list nat) (g : G) : tensor * G :=
  let (xs, g') := draws normal (numel s) g in (mk_tensor s xs, g').

Definition torch_randn_like (t : tensor) (g : G) : tensor * G :=
  torch_randn (shape t) g.

End Random.

(** A generator for the examples: its state counts the draws made. *)
#[export] Instance counting_generator : Generator nat := {
  seeded := fun seed => Z.to_nat seed;
  normal := fun g => (IZR (Z.of_nat g), S g);
  uniform := fun g => (IZR (Z.of_nat g), S g)
}.

(** [torch.zeros(s)] *)
Definition zeros (s : list nat) : tensor := mk_tensor s (repeat 0%R (numel s)).

End Torch.

(** ** Part 1: tensors *)

Module Part1.
Import Torch.
Open Scope result_scope.

(** Sigmoid activation function: [1/(1+torch.exp(-x))]. *)
Definition activation (x : tensor) : tensor :=
  number_div 1 (number_add 1 (torch_exp (neg x))).

Section Generate.
Context {G : Type} `{Generator G}.

(** The cell that generates the data: seed, then features, weights, bias. *)
Definition generate_data (g : G) : (tensor * tensor * tensor) * G :=
  let (_, g0) := torch_manual_seed 7 g in
  let (features, g1) := torch_randn [1; 5]%nat g0 in
  let (weights, g2) := torch_randn_like features g1 in
  let (bias, g3) := torch_randn [1; 1]%nat g2 in
  ((features, weights, bias), g3).

End Generate.

(** [activation(torch.sum(features * weights) + bias)] *)
Definition output_sum (features weights bias : tensor) : result tensor :=
  let* prod := mul features weights in
  let* weighted_input := add (torch_sum prod) bias in
  ret (activation weighted_input).

(** [activation(torch.mm(features,
      weights.reshape(tuple(reversed(weights.shape)))) + bias)] *)
Definition output_mm (features weights bias : tensor) : result tensor :=
  let* column := reshape weights (rev (shape weights)) in
  let* prod := torch_mm features column in
  let* weighted_input := add prod bias in
  ret (activation weighted_input).

End Part1.

(** ** Part 3: training neural networks *)

Module Part3.
Import Torch.
Open Scope result_scope.

(** *** The inline networks *)

(** The layers the notebook hands to [nn.Sequential]. *)
Inductive layer : Type :=
| Linear (in_features out_features : nat)
| ReLU
| LogSoftmax (dim : Z)
| Dropout (p : R).

Definition Sequential : Type := list layer.

(** Cell [2]: the network whose output is the logits, for
    [nn.CrossEntropyLoss]. *)
Definition model_cell_2 : Sequential :=
  [Linear 784 128; ReLU; Linear 128 64; ReLU; Linear 64 10].

(** Cell [7]: the network with a log-softmax output, for [nn.NLLLoss]. *)
Definition model_cell_7 : Sequential :=
  [Linear 784 128; ReLU; Linear 128 64; ReLU; Linear 64 10; LogSoftmax 1].

(** Cell [17]: the network whose gradients are inspected. *)
Definition model_cell_17 : Sequential :=
  [Linear 784 128; ReLU; Linear 128 64; ReLU; Linear 64 10; LogSoftmax 1].

(** Cell [10]: the network that the training loop trains. *)
Definition model_cell_10 : Sequential :=
  [Linear 784 128; ReLU; Linear 128 64; ReLU; Linear 64 10; LogSoftmax 1].

Definition inline_networks : list Sequential :=
  [model_cell_2; model_cell_7; model_cell_17; model_cell_10].

(** Linear layers, each hidden one followed by a nonlinearity and by
    dropout, and a log-softmax after the last linear layer. *)
Fixpoint linear_relu_dropout_log_softmax (m : Sequential) : bool :=
  match m with
  | [Linear _ _; LogSoftmax _] => true
  | Linear _ _ :: ReLU :: Dropout _ :: rest =>
      linear_relu_dropout_log_softmax rest
  | _ => false
  end.

(** Linear layers with a [ReLU] between consecutive ones, each layer as wide
    at its input as its predecessor at its output. *)
Fixpoint linear_relu_chain (width : nat) (m : Sequential) : option nat :=
  match m with
  | [Linear i o] => if Nat.eqb i width then Some o else None
  | Linear i o :: ReLU :: rest =>
      if Nat.eqb i width then linear_relu_chain o rest else None
  | _ => None
  end.

Definition is_dropout (l : layer) : bool :=
  match l with Dropout _ => true | _ => false end.

Definition has_dropout (m : Sequential) : bool := existsb is_dropout m.

(** The network without a final [LogSoftmax(dim=1)], and whether it had one. *)
Definition split_output (m : Sequential) : Sequential * bool :=
  match rev m with
  | LogSoftmax 1 :: body => (rev body, true)
  | _ => (m, false)
  end.

(** *** Autograd *)

(** How a tensor was computed from the tensor [x] that requires gradients:
    the graph that its [grad_fn] heads. *)
Inductive graph : Type :=
| leaf (x : tensor)
| PowBackward0 (input : graph) (exponent : nat)
| MeanBackward0 (input : graph).

Definition mean_of (t : tensor) : tensor :=
  scalar (sum_list (data t) / INR (numel (shape t))).

Fixpoint value (v : graph) : tensor :=
  match v with
  | leaf x => x
  | PowBackward0 u n => map_tensor (fun a => (a ^ n)%R) (value u)
  | MeanBackward0 u => mean_of (value u)
  end.

(** [t.expand(s)]: the entries of [t] repeated to fill the shape [s]. *)
Definition expand (t : tensor) (s : list nat) : result tensor :=
  if bool_decide (broadcast_shapes (shape t) s = Some s)
  then ret (mk_tensor s (expand_to s (shape t) (data t)))
  else raise (RuntimeError_size_mismatch (shape t) s).

(** The gradient that reaches [x] when [grad_output] enters the graph. *)
Fixpoint backprop (v : graph) (grad_output : tensor) : result tensor :=
  match v with
  | leaf _ => ret grad_output
  | PowBackward0 u n =>
      let local :=
        map_tensor (fun a => (INR n * a ^ (n - 1))%R) (value u) in
      let* g := mul grad_output local in
      backprop u g
  | MeanBackward0 u =>
      let s := shape (value u) in
      let* g := expand (div_number grad_output (INR (numel s))) s in
      backprop u g
  end.

(** [x.grad] is [None] until a backward pass, which adds to it. *)
Definition accumulate (grad : option tensor) (g : tensor)
  : result (option tensor) :=
  match grad with
  | None => ret (Some g)
  | Some old => let* s := add old g in ret (Some s)
  end.

(** [z.backward()]: only a tensor of one entry starts a backward pass
    without an explicit gradient. *)
Definition backward (z : graph) (x_grad : option tensor)
  : result (option tensor) :=
  let s := shape (value z) in
  if Nat.eqb (numel s) 1
  then let* g := backprop z (mk_tensor s [1%R]) in accumulate x_grad g
  else raise (RuntimeError_grad_of_non_scalar s).

(** Cells [9] to [13]: [y = x**2], [z = y.mean()], [z.backward()], and the
    value of [x.grad] afterwards. *)
Definition y_of (x : tensor) : graph := PowBackward0 (leaf x) 2.
Definition z_of (x : tensor) : graph := MeanBackward0 (y_of x).
Definition x_grad_after_backward (x : tensor) : result (option tensor) :=
  backward (z_of x) None.

(** *** The training loop *)

(** [images.shape[0]] *)
Definition shape_0 (t : tensor) : result nat :=
  match shape t with
  | n :: _ => ret n
  | [] => raise IndexError_tuple_index
  end.

(** [t.view(n, -1)]: the second dimension is what remains of the entries. *)
Definition view_rows (t : tensor) (n : nat) : result tensor :=
  let size := numel (shape t) in
  if Nat.eqb n 0 || negb (Nat.eqb (size mod n) 0)
  then raise (RuntimeError_invalid_view (shape t))
  else ret (mk_tensor [n; size / n] (data t)).

(** [nn.NLLLoss()]: minus the mean, over the rows of the input, of the entry
    that the row's target selects. *)
Definition NLLLoss (input : tensor) (target : list nat) : result tensor :=
  match shape input with
  | [n; c] =>
      if negb (Nat.eqb n (length target))
      then raise (ValueError_batch_size n (length target))
      else
        match find (fun t => Nat.leb c t) target with
        | Some t => raise (IndexError_target_out_of_bounds t c)
        | None =>
            ret (scalar (- sum_list (imap (fun i t => entry input c i t) target)
                           / INR n))
        end
  | s => raise (RuntimeError_size_mismatch s [length target])
  end.

(** [loss.item()] *)
Definition item (t : tensor) : result R :=
  match data t with
  | [v] => ret v
  | _ => raise (ValueError_item (shape t))
  end.

(** What the framework does to the parameters and their gradients is left
    open: the loop only sequences these calls. *)
Class Training (S : Type) : Type := {
  optimizer_zero_grad : S -> S;
  model_forward : S -> tensor -> tensor;
  loss_backward : S -> tensor -> list nat -> S;
  optimizer_step : S -> S
}.

(** The calls of one run, in the order they were made. *)
Inductive call : Type :=
| call_view
| call_zero_grad
| call_forward
| call_criterion
| call_backward (loss_shape : list nat)
| call_step
| call_item
| call_print.

Record session (S : Type) : Type := mk_session { net : S; log : list call }.
Arguments mk_session {S}.
Arguments net {S}.
Arguments log {S}.

Definition batch : Type := (tensor * list nat)%type.

Section Loop.
Context {S : Type} `{Training S}.

(** A call: it is logged, acts on the network, and returns or raises. *)
Definition calling {A} (c : call) (f : S -> S) (r : S -> result A)
  : M (session S) A :=
  fun w =>
    match r (net w) with
    | inl e => (inl e, mk_session (net w) (log w ++ [c]))
    | inr a => (inr a, mk_session (f (net w)) (log w ++ [c]))
    end.

Definition unchanged (s : S) : S := s.

Definition training_pass (b : batch) (running_loss : R) : M (session S) R :=
  let (images, labels) := b in
  let! n := lift (shape_0 images) in
  let! images := calling call_view unchanged (fun _ => view_rows images n) in
  let! _ := calling call_zero_grad optimizer_zero_grad (fun _ => ret tt) in
  let! logits :=
    calling call_forward unchanged (fun s => ret (model_forward s images)) in
  let! loss :=
    calling call_criterion unchanged (fun _ => NLLLoss logits labels) in
  let! _ :=
    calling (call_backward (shape loss))
      (fun s => loss_backward s images labels)
      (fun _ => if Nat.eqb (numel (shape loss)) 1 then ret tt
                else raise (RuntimeError_grad_of_non_scalar (shape loss))) in
  let! _ := calling call_step optimizer_step (fun _ => ret tt) in
  let! l := calling call_item unchanged (fun _ => item loss) in
  mret (running_loss + l)%R.

Fixpoint for_batches (batches : list batch) (running_loss : R)
  : M (session S) R :=
  match batches with
  | [] => mret running_loss
  | b :: rest =>
      let! running_loss := training_pass b running_loss in
      for_batches rest running_loss
  end.

(** The body of the loop over epochs; the [else] branch of the inner loop
    prints [running_loss/len(trainloader)]. *)
Definition epoch (batches : list batch) : M (session S) unit :=
  let! running_loss := for_batches batches 0%R in
  let! mean_loss :=
    lift (if Nat.eqb (length batches) 0 then raise ZeroDivisionError
          else ret (running_loss / INR (length batches))%R) in
  calling call_print unchanged (fun _ => ret tt).

Fixpoint for_epochs (trainloader : nat -> list batch) (es : list nat)
  : M (session S) unit :=
  match es with
  | [] => mret tt
  | e :: rest =>
      let! _ := epoch (trainloader e) in
      for_epochs trainloader rest
  end.

Definition epochs : nat := 5.

(** The loop of cell [10]; [trainloader e] lists the batches that the data
    loader yields in epoch [e]. *)
Definition training_loop (trainloader : nat -> list batch)
  : M (session S) unit :=
  for_epochs trainloader (seq 0 epochs).

End Loop.

(** The calls of one training pass and of a whole run that nothing
    interrupts. *)
Definition calls_of_pass : list call :=
  [call_view; call_zero_grad; call_forward; call_criterion;
   call_backward []; call_step; call_item].

Definition calls_of_epoch (batches : list batch) : list call :=
  concat (map (fun _ => calls_of_pass) batches) ++ [call_print].

Definition calls_of_run (trainloader : nat -> list batch) (es : list nat)
  : list call :=
  concat (map (fun e => calls_of_epoch (trainloader e)) es).

(** The five steps of a training pass among the calls. *)
Definition is_step (c : call) : bool :=
  match c with
  | call_zero_grad | call_forward | call_criterion | call_backward _
  | call_step => true
  | _ => false
  end.

Definition five_steps : list call :=
  [call_zero_grad; call_forward; call_criterion; call_backward [];
   call_step].

Definition backward_of_scalar (c : call) : Prop :=
  match c with call_backward s => s = [] | _ => True end.

(** [m] makes the calls [expected], in that order and no others, when it
    returns, and then its value satisfies [Q]; when it raises, it has made
    the first of them only. *)
Definition follows {S A : Type} (expected : list call) (Q : A -> Prop)
  (m : M (session S) A) : Prop :=
  forall w, exists done, log (m w).2 = log w ++ done /\
    match (m w).1 with
    | inr a => done = expected /\ Q a
    | inl _ => done `prefix_of` expected
    end.

(** The value of [z] as a function of the four entries of [x]. *)
Definition z_value (xs : list R) : R :=
  hd 0%R (data (value (z_of (mk_tensor [2; 2]%nat xs)))).

(** A network for the examples: its state counts the optimizer's steps and
    its output is zero for each of ten classes. *)
#[export] Instance counting_training : Training nat := {
  optimizer_zero_grad := fun s => s;
  model_forward := fun _ images =>
    zeros [hd 0%nat (shape images); 10%nat];
  loss_backward := fun s _ _ => s;
  optimizer_step := fun s => Datatypes.S s
}.

Definition two_images : batch := (zeros [2; 1; 2; 2]%nat, [3; 7]%nat).

End Part3.

(** ** Part 6: saving and loading models *)

Module Part6.
Import Torch.
Open Scope result_scope.

(** *** Layers, networks and their parameters *)

(** An [nn.Linear] object: its sizes and its two parameters. *)
Record Linear : Type := mk_Linear {
  in_features : nat;
  out_features : nat;
  weight : tensor;
  bias : tensor
}.

(** The ordered dictionary from parameter names to tensors. *)
Definition state_dict : Type := list (string * tensor).

Definition keys (sd : state_dict) : list string := map fst sd.

Fixpoint get (key : string) (sd : state_dict) : option tensor :=
  match sd with
  | [] => None
  | (k, t) :: rest => if String.eqb k key then Some t else get key rest
  end.

(** A network object of class [Network]. *)
Record network : Type := mk_network {
  hidden_layers : list Linear;
  output : Linear;
  dropout : R
}.

Definition linear_state (prefix : string) (l : Linear) : state_dict :=
  [(prefix +:+ ".weight", weight l); (prefix +:+ ".bias", bias l)].

Definition hidden_prefix (k : nat) : string := "hidden_layers." +:+ pretty k.

Fixpoint hidden_state (k : nat) (ls : list Linear) : state_dict :=
  match ls with
  | [] => []
  | l :: rest => linear_state (hidden_prefix k) l ++ hidden_state (S k) rest
  end.

(** [model.state_dict()] *)
Definition network_state_dict (m : network) : state_dict :=
  hidden_state 0 (hidden_layers m) ++ linear_state "output" (output m).

(** [model.load_state_dict(sd)], parameter by parameter: a parameter whose
    key is in [sd] with the parameter's shape takes the entries found there;
    a different shape is reported and a key that is not in [sd] is missing. *)
Definition load_param (key : string) (param : tensor) (sd : state_dict)
  : tensor * list load_error * list string :=
  match get key sd with
  | Some input_param =>
      if shape_eqb (shape input_param) (shape param)
      then (mk_tensor (shape param) (data input_param), [], [])
      else (param, [size_mismatch key (shape input_param) (shape param)], [])
  | None => (param, [], [key])
  end.

Definition load_linear (prefix : string) (l : Linear) (sd : state_dict)
  : Linear * list load_error * list string :=
  let '(w, e1, m1) := load_param (prefix +:+ ".weight") (weight l) sd in
  let '(b, e2, m2) := load_param (prefix +:+ ".bias") (bias l) sd in
  (mk_Linear (in_features l) (out_features l) w b, e1 ++ e2, m1 ++ m2).

Fixpoint load_hidden (k : nat) (ls : list Linear) (sd : state_dict)
  : list Linear * list load_error * list string :=
  match ls with
  | [] => ([], [], [])
  | l :: rest =>
      let '(l', e1, m1) := load_linear (hidden_prefix k) l sd in
      let '(rest', e2, m2) := load_hidden (S k) rest sd in
      (l' :: rest', e1 ++ e2, m1 ++ m2)
  end.

Record IncompatibleKeys : Type := mk_IncompatibleKeys {
  missing_keys : list string;
  unexpected_keys : list string
}.

Definition report {A} (label : list A -> load_error) (l : list A)
  : list load_error :=
  match l with [] => [] | _ => [label l] end.

(** The network after the call, and what the call returns or raises. *)
Definition load_state_dict (m : network) (sd : state_dict)
  : network * result IncompatibleKeys :=
  let '(hs, e1, m1) := load_hidden 0 (hidden_layers m) sd in
  let '(out, e2, m2) := load_linear "output" (output m) sd in
  let m' := mk_network hs out (dropout m) in
  let missing := m1 ++ m2 in
  let expected := keys (network_state_dict m) in
  let unexpected :=
    List.filter (fun k => negb (bool_decide (k ∈ expected))) (keys sd) in
  let error_msgs :=
    report missing_key_s missing ++ report unexpected_key_s unexpected
      ++ (e1 ++ e2) in
  (m', match error_msgs with
       | [] => ret (mk_IncompatibleKeys missing unexpected)
       | _ => raise (RuntimeError_loading_state_dict error_msgs)
       end).

(** *** Python values, files and the notebook's state *)

(** The values that the notebook puts into a checkpoint or into a file. *)
Inductive pyobj : Type :=
| py_int (n : nat)
| py_float (x : R)
| py_list (l : list nat)
| py_state_dict (sd : state_dict)
| py_dict (d : gmap string pyobj).

(** [d[key]] *)
Definition getitem (d : pyobj) (key : string) : result pyobj :=
  match d with
  | py_dict d =>
      match d !! key with
      | Some v => ret v
      | None => raise (KeyError key)
      end
  | _ => raise TypeError
  end.

Definition as_int (v : pyobj) : result nat :=
  match v with py_int n => ret n | _ => raise TypeError end.
Definition as_list (v : pyobj) : result (list nat) :=
  match v with py_list l => ret l | _ => raise TypeError end.
Definition as_state_dict (v : pyobj) : result state_dict :=
  match v with py_state_dict sd => ret sd | _ => raise TypeError end.

Section World.
Context {G : Type} `{Generator G}.

(** What outlives a cell besides the notebook's variables: the files and the
    state of the random number generator. *)
Record world : Type := mk_world { files : gmap string pyobj; rng : G }.

(** [torch.save(obj, path)] and [torch.load(path)]: the file holds the
    object. *)
Definition torch_save (obj : pyobj) (path : string) : M world unit :=
  fun w => (ret tt, mk_world (<[path := obj]> (files w)) (rng w)).

Definition torch_load (path : string) : M world pyobj :=
  fun w =>
    (match files w !! path with
     | Some obj => ret obj
     | None => raise (FileNotFoundError path)
     end, w).

(** [nn.Linear(i, o)]: an [o x i] weight and a bias of [o] entries, drawn
    from the generator. *)
Definition nn_Linear (i o : nat) : M world Linear :=
  fun w =>
    let (ws, g1) := draws uniform (o * i) (rng w) in
    let (bs, g2) := draws uniform o g1 in
    (ret (mk_Linear i o (mk_tensor [o; i] ws) (mk_tensor [o] bs)),
     mk_world (files w) g2).

(** Modelled from the spec: the class [fc_model.Network] is not among the
    sources.  The spec describes it as a fully-connected feedforward
    classifier with configurable hidden layer sizes and dropout: a list of
    linear transformations, from the input size through the hidden sizes to
    the output size.  The notebook prints the object as the list
    [hidden_layers], the layer [output] and [Dropout(p=0.5)]. *)
Fixpoint Network_hidden (width : nat) (hidden : list nat)
  : M world (list Linear) :=
  match hidden with
  | [] => mret []
  | h :: rest =>
      let! l := nn_Linear width h in
      let! ls := Network_hidden h rest in
      mret (l :: ls)
  end.

Definition Network_with (input_size output_size : nat) (hidden : list nat)
  (drop_p : R) : M world network :=
  let! hs := Network_hidden input_size hidden in
  let! out := nn_Linear (List.last hidden input_size) output_size in
  mret (mk_network hs out drop_p).

Definition Network (input_size output_size : nat) (hidden : list nat)
  : M world network :=
  Network_with input_size output_size hidden (1 / 2).

(** Modelled from the spec: the forward pass of [fc_model.Network] is not
    among the sources.  The spec describes it as linear transformations with
    a nonlinearity and dropout between them and a log-softmax output. *)
Definition Network_forward (m : network) : Part3.Sequential :=
  flat_map (fun l => [Part3.Linear (in_features l) (out_features l);
                      Part3.ReLU; Part3.Dropout (dropout m)])
           (hidden_layers m)
    ++ [Part3.Linear (in_features (output m)) (out_features (output m));
        Part3.LogSoftmax 1].

(** The function of cell [21]. *)
Definition load_checkpoint (filepath : string) : M world network :=
  let! checkpoint := torch_load filepath in
  let! input_size :=
    lift (let* v := getitem checkpoint "input_size" in as_int v) in
  let! output_size :=
    lift (let* v := getitem checkpoint "output_size" in as_int v) in
  let! hidden :=
    lift (let* v := getitem checkpoint "hidden_layers" in as_list v) in
  let! model := Network input_size output_size hidden in
  let! sd :=
    lift (let* v := getitem checkpoint "state_dict" in as_state_dict v) in
  let! model :=
    lift (let (model, r) := load_state_dict model sd in
          let* _ := r in ret model) in
  mret model.

(** The notebook's variables [model], [state_dict] and [checkpoint], the
    latter two unbound at first, with the world.  A variable holds the value
    it had when it was assigned; no cell changes a parameter of the model
    after its state dict was put into [checkpoint]. *)
Record notebook : Type := mk_notebook {
  model : network;
  state_dict_var : option pyobj;
  checkpoint_var : option pyobj;
  os : world
}.

(** Cell [7]: [torch.save(model.state_dict(), 'checkpoint.pth')] *)
Definition cell_7 (nb : notebook) : result unit * notebook :=
  let (r, w) :=
    torch_save (py_state_dict (network_state_dict (model nb)))
               "checkpoint.pth" (os nb) in
  (r, mk_notebook (model nb) (state_dict_var nb) (checkpoint_var nb) w).

(** Cell [10]: [state_dict = torch.load('checkpoint.pth')] *)
Definition cell_10 (nb : notebook) : result unit * notebook :=
  match torch_load "checkpoint.pth" (os nb) with
  | (inl e, w) =>
      (inl e, mk_notebook (model nb) (state_dict_var nb) (checkpoint_var nb) w)
  | (inr obj, w) =>
      (ret tt, mk_notebook (model nb) (Some obj) (checkpoint_var nb) w)
  end.

(** A dictionary with the four fields that [load_checkpoint] reads. *)
Definition checkpoint_dict (i o : nat) (hidden : list nat) (sd : state_dict)
  : gmap string pyobj :=
  <["input_size" := py_int i]>
  (<["output_size" := py_int o]>
  (<["hidden_layers" := py_list hidden]>
  (<["state_dict" := py_state_dict sd]> ∅))).

(** The dictionary of cell [20]. *)
Definition checkpoint_of (m : network) : gmap string pyobj :=
  <["input_size" := py_int 784]>
  (<["output_size" := py_int 10]>
  (<["hidden_layers" := py_list (map out_features (hidden_layers m))]>
  (<["state_dict" := py_state_dict (network_state_dict m)]> ∅))).

(** Cell [20]: the dictionary is built and saved. *)
Definition cell_20 (nb : notebook) : result unit * notebook :=
  let checkpoint := py_dict (checkpoint_of (model nb)) in
  let (r, w) := torch_save checkpoint "checkpoint.pth" (os nb) in
  (r, mk_notebook (model nb) (state_dict_var nb) (Some checkpoint) w).

(** Cell [22]: [model = load_checkpoint('checkpoint.pth')] *)
Definition cell_22 (nb : notebook) : result unit * notebook :=
  match load_checkpoint "checkpoint.pth" (os nb) with
  | (inl e, w) =>
      (inl e, mk_notebook (model nb) (state_dict_var nb) (checkpoint_var nb) w)
  | (inr m, w) =>
      (ret tt, mk_notebook m (state_dict_var nb) (checkpoint_var nb) w)
  end.

End World.

Arguments world G : clear implicits.
Arguments notebook G : clear implicits.

(** A layer with the sizes and the parameter shapes of [nn.Linear(i, o)]. *)
Definition is_Linear (i o : nat) (l : Linear) : Prop :=
  in_features l = i /\ out_features l = o
  /\ shape (weight l) = [o; i] /\ shape (bias l) = [o].

Fixpoint hidden_chain (width : nat) (hidden : list nat) (ls : list Linear)
  : Prop :=
  match hidden, ls with
  | [], [] => True
  | h :: hidden', l :: ls' => is_Linear width h l /\ hidden_chain h hidden' ls'
  | _, _ => False
  end.

(** A network with the layers of [Network(i, o, hidden)], whatever the
    entries of its parameters. *)
Definition has_architecture (i o : nat) (hidden : list nat) (m : network)
  : Prop :=
  hidden_chain i hidden (hidden_layers m)
  /\ is_Linear (List.last hidden i) o (output m).

(** The size mismatches among what loading reports. *)
Definition errors_of {A} (r : A * list load_error * list string)
  : list load_error := r.1.2.

(** A string without a dot: the decimal numbers are such strings. *)
Fixpoint no_dot (s : string) : Prop :=
  match s with
  | EmptyString => True
  | String c s' => c <> "."%char /\ no_dot s'
  end.

(** Examples: a network from 784 inputs through 3 hidden units to 10
    outputs, in a notebook with no file yet; and a file whose state dict was
    saved from a network with 5 hidden units while its hyperparameters
    announce 4. *)
Definition zero_Linear (i o : nat) : Linear :=
  mk_Linear i o (zeros [o; i]) (zeros [o]).

Definition notebook_0 : notebook nat :=
  mk_notebook (mk_network [zero_Linear 784 3] (zero_Linear 3 10) (1 / 2))
              None None (mk_world ∅ 0%nat).

Definition saved_elsewhere : state_dict :=
  network_state_dict (mk_network [zero_Linear 3 5] (zero_Linear 5 2) (1 / 2)).

Definition world_1 : world nat :=
  mk_world (<["checkpoint.pth" :=
               py_dict (checkpoint_dict 3 2 [4] saved_elsewhere)]> ∅) 0%nat.

End Part6.

(** ** Part 1: the network with one hidden layer *)

Module Part1Layers.
Import Torch Part1.
Open Scope result_scope.

(** The number [1/(1+exp(-v))] that [activation] puts in the place of an
    entry [v]. *)
Definition sigmoid (v : R) : R := (1 / (1 + exp (- v)))%R.

(** Every entry lies strictly between 0 and 1. *)
Definition in_unit_interval (t : tensor) : Prop :=
  Forall (fun v => (0 < v < 1)%R) (data t).

(** [t.shape[i]] *)
Definition shape_at (t : tensor) (i : nat) : result nat :=
  match nth_error (shape t) i with
  | Some n => ret n
  | None => raise IndexError_tuple_index
  end.

Section Generate.
Context {G : Type} `{Generator G}.

(** The cell that generates the data of the network with one hidden layer:
    seed, features, the sizes of the layers, weights and biases. *)
Definition generate_network_data (g : G)
  : result (tensor * tensor * tensor * tensor * tensor) * G :=
  let (_, g0) := torch_manual_seed 7 g in
  let (features, g1) := torch_randn [1; 3]%nat g0 in
  match shape_at features 1 with
  | inl e => (inl e, g1)
  | inr n_input =>
      let n_hidden := 2%nat in
      let n_output := 1%nat in
      let (W1, g2) := torch_randn [n_input; n_hidden] g1 in
      let (W2, g3) := torch_randn [n_hidden; n_output] g2 in
      let (B1, g4) := torch_randn [1%nat; n_hidden] g3 in
      let (B2, g5) := torch_randn [1%nat; n_output] g4 in
      (ret (features, W1, W2, B1, B2), g5)
  end.

End Generate.

(** [hidden_layer = activation(torch.mm(features, W1) + B1)] and
    [output_layer = activation(torch.mm(hidden_layer, W2) + B2)] *)
Definition multilayer_output (features W1 W2 B1 B2 : tensor)
  : result (tensor * tensor) :=
  let* prod := torch_mm features W1 in
  let* weighted := add prod B1 in
  let hidden_layer := activation weighted in
  let* prod := torch_mm hidden_layer W2 in
  let* weighted := add prod B2 in
  let output_layer := activation weighted in
  ret (hidden_layer, output_layer).

(** What a layer computes, entry by entry: the sigmoid of the weighted sum
    of row [i] of [x] with column [j] of [W], plus entry [j] of the bias. *)
Definition layer_entry (x W B : tensor) (k h i j : nat) : R :=
  sigmoid (dot x W k h i j + nth j (data B) 0%R)%R.

Definition layer_output (x W B : tensor) (N k h : nat) : tensor :=
  mk_tensor [N; h]
    (flat_map (fun i => map (layer_entry x W B k h i) (seq 0 h)) (seq 0 N)).

End Part1Layers.

(** ** Part 3: what the passes of the training loop compute *)

Module Part3Passes.
Import Torch Part3.
Open Scope result_scope.

(** The value of [z] as a function of one entry of [x], the entries before
    and after it fixed. *)
Definition z_at (s : list nat) (before after : list R) (t : R) : R :=
  hd 0%R (data (value (z_of (mk_tensor s (before ++ t :: after))))).

(** What [images.view(images.shape[0], -1)] returns when it returns. *)
Definition flattened (images : tensor) : tensor :=
  let n := hd 0%nat (shape images) in
  mk_tensor [n; numel (shape images) / n] (data images).

Section Updates.
Context {S : Type} `{Training S}.

(** The number that [loss.item()] returns in the pass over a batch, when
    the network is in state [s] before the pass. *)
Definition pass_loss (s : S) (b : batch) : result R :=
  let* n := shape_0 b.1 in
  let* images := view_rows b.1 n in
  let* loss := NLLLoss (model_forward (optimizer_zero_grad s) images) b.2 in
  item loss.

(** The network after a pass over a batch: [zero_grad], [backward],
    [step]. *)
Definition update (s : S) (b : batch) : S :=
  optimizer_step (loss_backward (optimizer_zero_grad s) (flattened b.1) b.2).

(** The network after the passes of the epochs [es]. *)
Definition trained (trainloader : nat -> list batch) (es : list nat) (s : S)
  : S :=
  fold_left (fun s e => fold_left update (trainloader e) s) es s.

(** The losses of the batches of an epoch, each on the network as the
    passes before it left it. *)
Fixpoint pass_losses (s : S) (batches : list batch) : result (list R) :=
  match batches with
  | [] => ret []
  | b :: rest =>
      let* l := pass_loss s b in
      let* ls := pass_losses (update s b) rest in
      ret (l :: ls)
  end.

End Updates.

End Part3Passes.

(** ** Part 3: the forward pass of the inline networks *)

Module Forward.
Import Torch Part3.
Open Scope result_scope.

(** What a forward pass raises: an exception of the operations above, or
    the [IndexError] of a dimension or of an index out of range. *)
Inductive error : Type :=
| raised (e : exception)
| IndexError_dimension (n : nat) (dim : Z)
| IndexError_index (s : list nat).

Definition outcome (A : Type) : Type := (error + A)%type.

Definition framework {A} (r : result A) : outcome A :=
  match r with inl e => inl (raised e) | inr a => inr a end.

Definition obind {A B} (m : outcome A) (k : A -> outcome B) : outcome B :=
  match m with inl e => inl e | inr a => k a end.

Notation "'let+' x ':=' m 'in' k" := (obind m (fun x => k))
  (at level 10, x name, m at level 100, k at level 200) : result_scope.

(** The modules that the notebook hands to [nn.Sequential], as objects: a
    linear layer holds its parameters. *)
Inductive module : Type :=
| Linear_module (l : Part6.Linear)
| ReLU_module
| LogSoftmax_module (dim : Z).

(** [F.linear(input, weight, bias)]: the rows of the input, which are its
    entries along the last dimension, times the transposed weight, plus the
    bias. *)
Definition F_linear (input : tensor) (l : Part6.Linear) : result tensor :=
  let W := Part6.weight l in
  match rev (shape input), shape W with
  | k :: leading, [o; i] =>
      if Nat.eqb k i
      then
        let product :=
          mk_tensor (rev leading ++ [o])
            (flat_map
               (fun r =>
                  map (fun j =>
                         sum_list
                           (map (fun c => (entry input k r c * entry W i j c)%R)
                                (seq 0 k)))
                      (seq 0 o))
               (seq 0 (numel (rev leading)))) in
        add product (Part6.bias l)
      else raise (RuntimeError_size_mismatch (shape input) (shape W))
  | _, _ => raise (RuntimeError_size_mismatch (shape input) (shape W))
  end.

(** [F.relu(input)] *)
Definition F_relu : tensor -> tensor := map_tensor (Rmax 0).

(** [F.log_softmax(input, dim)]: along the dimension [dim], counted from
    the end when negative, every entry minus the logarithm of the sum of the
    exponentials.  A tensor without dimensions counts as one entry along
    one dimension. *)
Definition F_log_softmax (input : tensor) (dim : Z) : outcome tensor :=
  let s := shape input in
  let n := Z.of_nat (Nat.max (length s) 1) in
  if ((- n <=? dim) && (dim <? n))%Z
  then
    let d := Z.to_nat (if (dim <? 0)%Z then dim + n else dim)%Z in
    let outer := numel (firstn d s) in
    let c := nth d s 1%nat in
    let inner := numel (skipn (S d) s) in
    let x a j b := nth ((a * c + j) * inner + b) (data input) 0%R in
    inr (mk_tensor s
           (flat_map
              (fun a =>
                 flat_map
                   (fun j =>
                      map (fun b =>
                             (x a j b
                              - ln (sum_list
                                      (map (fun j' => exp (x a j' b))
                                           (seq 0 c))))%R)
                          (seq 0 inner))
                   (seq 0 c))
              (seq 0 outer)))
  else inl (IndexError_dimension (length s) dim).

(** [model(input)] for [model = nn.Sequential(...)]: the modules are
    applied in their order. *)
Fixpoint forward (model : list module) (input : tensor) : outcome tensor :=
  match model with
  | [] => inr input
  | Linear_module l :: rest =>
      let+ output := framework (F_linear input l) in forward rest output
  | ReLU_module :: rest => forward rest (F_relu input)
  | LogSoftmax_module dim :: rest =>
      let+ output := F_log_softmax input dim in forward rest output
  end.

(** A module object of the class and with the arguments that a layer of
    the notebook's expression names, whatever the entries of its
    parameters. *)
Definition built (lay : layer) (m : module) : Prop :=
  match lay, m with
  | Linear i o, Linear_module l => Part6.is_Linear i o l
  | ReLU, ReLU_module => True
  | LogSoftmax dim, LogSoftmax_module dim' => dim = dim'
  | _, _ => False
  end.

Definition built_from (layers : Sequential) (model : list module) : Prop :=
  Forall2 built layers model.

(** Cell [7]: the images are flattened and passed through the model, and
    the criterion computes the loss from the output and the labels. *)
Definition loss_of_batch (model : list module) (b : batch) : outcome tensor :=
  let (images, labels) := b in
  let+ n := framework (shape_0 images) in
  let+ images := framework (view_rows images n) in
  let+ logits := forward model images in
  framework (NLLLoss logits labels).

(** [t[0]] and [t.view(s)] *)
Definition first_of (t : tensor) : outcome tensor :=
  match shape t with
  | S _ :: s => inr (mk_tensor s (firstn (numel s) (data t)))
  | s => inl (IndexError_index s)
  end.

Definition view (t : tensor) (s : list nat) : result tensor :=
  if Nat.eqb (numel s) (numel (shape t))
  then ret (mk_tensor s (data t))
  else raise (RuntimeError_invalid_view (shape t)).

(** Cell [11]: the probabilities that the model gives the first image of a
    batch, [torch.exp(model(images[0].view(1, 784)))]. *)
Definition probabilities (model : list module) (images : tensor)
  : outcome tensor :=
  let+ image := first_of images in
  let+ img := framework (view image [1; 784]%nat) in
  let+ logps := forward model img in
  inr (torch_exp logps).

(** The entries of row [a] of a matrix with [c] columns. *)
Definition row (t : tensor) (c a : nat) : list R :=
  map (entry t c a) (seq 0 c).

(** Log-probabilities: a matrix whose rows, exponentiated, add up to one;
    no entry of such a matrix is positive. *)
Definition log_probabilities (t : tensor) (N c : nat) : Prop :=
  shape t = [N; c] /\ wf t
  /\ forall a, (a < N)%nat ->
       sum_list (map exp (row t c a)) = 1%R
       /\ Forall (fun v => (v <= 0)%R) (row t c a).

(** The three linear layers with a [ReLU] between them. *)
Definition three_layers (l1 l2 l3 : Part6.Linear) : list module :=
  [Linear_module l1; ReLU_module; Linear_module l2; ReLU_module;
   Linear_module l3].

(** For the examples: the model of cell [7] with all parameters zero. *)
Definition zero_model : list module :=
  three_layers (Part6.zero_Linear 784 128) (Part6.zero_Linear 128 64)
               (Part6.zero_Linear 64 10)
    ++ [LogSoftmax_module 1].

End Forward.

(** ** Part 6: what loading a state dict reports and changes *)

Module Part6Loading.
Import Torch Part6.
Open Scope result_scope.

(** What loading [sd] reports of one parameter of the model: the size
    mismatch, and the key when [sd] does not have it. *)
Definition mismatch_of (sd : state_dict) (entry : string * tensor)
  : list load_error :=
  match get entry.1 sd with
  | Some t =>
      if shape_eqb (shape t) (shape entry.2) then []
      else [size_mismatch entry.1 (shape t) (shape entry.2)]
  | None => []
  end.

Definition missing_of (sd : state_dict) (entry : string * tensor)
  : list string :=
  match get entry.1 sd with Some _ => [] | None => [entry.1] end.

(** The messages of the error, as the notebook shows them: the missing
    keys, the unexpected keys, then one size mismatch per parameter in the
    order of the model's state dict. *)
Definition error_msgs_of (m : network) (sd : state_dict) : list load_error :=
  let params := network_state_dict m in
  report missing_key_s (flat_map (missing_of sd) params)
  ++ report unexpected_key_s
       (List.filter (fun k => negb (bool_decide (k ∈ keys params))) (keys sd))
  ++ flat_map (mismatch_of sd) params.

(** The parameter after loading: the entries found under its key when
    their shape fits, its own otherwise. *)
Definition loaded_param (sd : state_dict) (entry : string * tensor)
  : string * tensor :=
  (entry.1,
   match get entry.1 sd with
   | Some t =>
       if shape_eqb (shape t) (shape entry.2)
       then mk_tensor (shape entry.2) (data t)
       else entry.2
   | None => entry.2
   end).

(** Two results of loading that report the same and, when they report
    nothing, hold the same. *)
Definition same_outcome {A} (r1 r2 : A * list load_error * list string)
  : Prop :=
  r1.1.2 = r2.1.2 /\ r1.2 = r2.2
  /\ (r1.1.2 = [] -> r1.2 = [] -> r1.1.1 = r2.1.1).

(** The report that the notebook shows below cell [19]. *)
Definition report_of_cell_19 : list load_error :=
  [size_mismatch "hidden_layers.0.weight" [512; 784] [400; 784];
   size_mismatch "hidden_layers.0.bias" [512] [400];
   size_mismatch "hidden_layers.1.weight" [256; 512] [200; 400];
   size_mismatch "hidden_layers.1.bias" [256] [200];
   size_mismatch "hidden_layers.2.weight" [128; 256] [100; 200];
   size_mismatch "hidden_layers.2.bias" [128] [100];
   size_mismatch "output.weight" [10; 128] [10; 100]]%nat.

(** For the examples: a network with three hidden layers and all
    parameters zero, and a file that holds a dictionary without the field
    ['hidden_layers']. *)
Definition zero_Network (i o h1 h2 h3 : nat) : network :=
  mk_network [zero_Linear i h1; zero_Linear h1 h2; zero_Linear h2 h3]
             (zero_Linear h3 o) (1 / 2).

Definition world_2 : world nat :=
  mk_world (<["checkpoint.pth" :=
               py_dict (<["input_size" := py_int 3]>
                        (<["output_size" := py_int 2]> ∅))]> ∅) 0%nat.

End Part6Loading.

(** ** Facts about the framework's operations *)

Module TorchFacts.
Import Torch.
Open Scope result_scope.

Lemma bind_ret {A B} (a : A) (k : A -> result B) : bind (ret a) k = k a.
Proof. reflexivity. Qed.

Lemma mbind_returns {W A B} (m : M W A) (k : A -> M W B) (w w' : W) (a : A) :
  m w = (ret a, w') -> mbind m k w = k a w'.
Proof. intros Hm. unfold mbind. by rewrite Hm. Qed.

Lemma numel_row (n : nat) : numel [1; n] = n.
Proof. unfold numel; simpl. lia. Qed.

Lemma numel_column (n : nat) : numel [n; 1] = n.
Proof. unfold numel; simpl. lia. Qed.

Lemma broadcast_reversed_same (s : list nat) : broadcast_reversed s s = Some s.
Proof.
  induction s as [|d s IH]; [done|]. cbn [broadcast_reversed].
  by rewrite IH, Nat.eqb_refl.
Qed.

Lemma broadcast_shapes_same (s : list nat) : broadcast_shapes s s = Some s.
Proof.
  unfold broadcast_shapes. rewrite broadcast_reversed_same. cbn.
  by rewrite rev_involutive.
Qed.

Lemma broadcast_shapes_scalar_l (s : list nat) : broadcast_shapes [] s = Some s.
Proof.
  unfold broadcast_shapes. cbn [rev broadcast_reversed option_map].
  by rewrite rev_involutive.
Qed.

Lemma broadcast_shapes_scalar_r (s : list nat) : broadcast_shapes s [] = Some s.
Proof.
  unfold broadcast_shapes. cbn [rev].
  assert (Hr : broadcast_reversed (rev s) [] = Some (rev s))
    by (by destruct (rev s)).
  rewrite Hr. cbn [option_map]. by rewrite rev_involutive.
Qed.

Lemma chunks_concat (n d : nat) (xs : list R) :
  length xs = (d * n)%nat ->
  flat_map (fun i => firstn n (skipn (i * n) xs)) (seq 0 d) = xs.
Proof.
  revert xs. induction d as [|d IH]; intros xs Hlen.
  - by destruct xs.
  - cbn [seq flat_map]. rewrite <- seq_shift, flat_map_concat_map, map_map.
    rewrite <- flat_map_concat_map. cbn [Nat.mul skipn].
    transitivity (firstn n xs ++ skipn n xs); [|apply firstn_skipn].
    f_equal.
    transitivity (flat_map (fun i => firstn n (skipn (i * n) (skipn n xs)))
                           (seq 0 d)).
    + apply flat_map_ext. intros i. by rewrite skipn_skipn, Nat.add_comm.
    + apply IH. rewrite length_skipn. lia.
Qed.

Lemma expand_entries_same (s : list nat) :
  forall xs, length xs = numel s -> expand_entries s s xs = xs.
Proof.
  induction s as [|d s IH]; intros xs Hlen; [done|].
  cbn [expand_entries]. rewrite Nat.eqb_refl.
  transitivity (flat_map (fun i => firstn (numel s) (skipn (i * numel s) xs))
                         (seq 0 d)); [|by apply chunks_concat].
  rewrite !flat_map_concat_map. f_equal. apply map_ext_in. intros i Hi.
  apply IH.
  apply in_seq in Hi. rewrite length_firstn, length_skipn.
  cbn [numel fold_right] in Hlen. fold (numel s) in Hlen. nia.
Qed.

Lemma expand_to_same (s : list nat) (xs : list R) :
  length xs = numel s -> expand_to s s xs = xs.
Proof.
  intros Hlen. unfold expand_to. rewrite Nat.sub_diag. by apply expand_entries_same.
Qed.

Lemma numel_ones (k : nat) : numel (repeat 1%nat k) = 1%nat.
Proof. induction k as [|k IH]; [done|]. cbn. fold (numel (repeat 1%nat k)). lia. Qed.

Lemma flat_map_repeat (x : R) (n D : nat) :
  flat_map (fun _ : nat => repeat x n) (seq 0 D) = repeat x (D * n).
Proof.
  generalize 0%nat. induction D as [|D IH]; intros k; [done|].
  cbn [seq flat_map Nat.mul]. by rewrite IH, repeat_app.
Qed.

Lemma expand_entries_scalar (x : R) (target : list nat) :
  expand_entries (repeat 1%nat (length target)) target [x]
  = repeat x (numel target).
Proof.
  induction target as [|D target IH]; [done|].
  cbn [length repeat expand_entries numel fold_right]. fold (numel target).
  rewrite numel_ones. destruct (Nat.eqb_spec 1 D) as [<-|_].
  - cbn [seq flat_map Nat.mul skipn firstn]. rewrite IH, app_nil_r. f_equal. lia.
  - rewrite (flat_map_ext _ (fun _ => repeat x (numel target))) by (intros; apply IH).
    apply flat_map_repeat.
Qed.

Lemma expand_to_scalar (x : R) (target : list nat) :
  expand_to target [] [x] = repeat x (numel target).
Proof.
  unfold expand_to. cbn [length]. rewrite Nat.sub_0_r, app_nil_r.
  apply expand_entries_scalar.
Qed.

Lemma zip_with_R_repeat_l f (x : R) (ys : list R) :
  zip_with_R f (repeat x (length ys)) ys = map (f x) ys.
Proof. induction ys as [|y ys IH]; [done|]. cbn. by rewrite IH. Qed.

Lemma zip_with_R_repeat_r f (y : R) (xs : list R) :
  zip_with_R f xs (repeat y (length xs)) = map (fun x => f x y) xs.
Proof. induction xs as [|x xs IH]; [done|]. cbn. by rewrite IH. Qed.

Lemma pointwise_same_shape f (s : list nat) (xs ys : list R) :
  length xs = numel s -> length ys = numel s ->
  pointwise f (mk_tensor s xs) (mk_tensor s ys)
  = ret (mk_tensor s (zip_with_R f xs ys)).
Proof.
  intros Hx Hy. unfold pointwise; cbn [shape data].
  by rewrite broadcast_shapes_same, !expand_to_same.
Qed.

Lemma pointwise_scalar_left f (x : R) (t : tensor) :
  wf t ->
  pointwise f (scalar x) t = ret (mk_tensor (shape t) (map (f x) (data t))).
Proof.
  intros Ht. unfold pointwise, scalar; cbn [shape data].
  rewrite broadcast_shapes_scalar_l, expand_to_scalar, expand_to_same by done.
  by rewrite <- Ht, zip_with_R_repeat_l.
Qed.

(** A row of three entries added to a column of two: each is repeated along
    the other's dimension. *)
Example add_row_to_column :
  add (mk_tensor [1; 3]%nat [1; 2; 3]%R) (mk_tensor [2; 1]%nat [10; 20]%R)
  = ret (mk_tensor [2; 3]%nat [11; 12; 13; 21; 22; 23]%R).
Proof.
  vm_compute. do 2 f_equal.
  repeat (apply (f_equal2 cons); [lra|]). reflexivity.
Qed.

Lemma reshape_same_size (t : tensor) (s : list nat) :
  numel s = numel (shape t) -> reshape t s = ret (mk_tensor s (data t)).
Proof. intros Hs. unfold reshape. by rewrite Hs, Nat.eqb_refl. Qed.

(** The sum over the index of the products of the entries is the sum of the
    entrywise products. *)
Lemma sum_list_dot (fs ws : list R) :
  length fs = length ws ->
  sum_list (map (fun l => (nth l fs 0 * nth l ws 0)%R) (seq 0 (length fs)))
  = sum_list (zip_with_R Rmult fs ws).
Proof.
  revert ws.
  induction fs as [|f fs IH]; intros [|w ws] Hlen; simpl in *; try done.
  f_equal. rewrite <- seq_shift, map_map. apply IH. lia.
Qed.

Lemma mm_row_column (n : nat) (fs ws : list R) :
  length fs = n -> length ws = n ->
  torch_mm (mk_tensor [1; n] fs) (mk_tensor [n; 1] ws)
  = ret (mk_tensor [1; 1] [sum_list (zip_with_R Rmult fs ws)]).
Proof.
  intros Hf Hw. unfold torch_mm; cbn [shape]. rewrite Nat.eqb_refl.
  cbn [seq flat_map map app]. do 3 f_equal.
  unfold dot, entry; cbn [data]. subst n. rewrite <- sum_list_dot by done.
  f_equal. apply map_ext. intros l.
  by rewrite Nat.mul_0_l, Nat.add_0_l, Nat.mul_1_r, Nat.add_0_r.
Qed.

Lemma draws_length {G : Type} (sample : G -> R * G) (n : nat) (g : G) :
  length (draws sample n g).1 = n.
Proof.
  revert g. induction n as [|n IH]; intros g; [done|]. cbn [draws].
  destruct (sample g) as [x g1]. specialize (IH g1).
  destruct (draws sample n g1) as [xs g2]. cbn in *. by rewrite IH.
Qed.

Lemma torch_randn_wf {G : Type} `{Generator G} (s : list nat) (g : G) :
  shape (torch_randn s g).1 = s /\ wf (torch_randn s g).1.
Proof.
  unfold torch_randn, wf. pose proof (draws_length normal (numel s) g) as Hlen.
  by destruct (draws normal (numel s) g) as [xs g'].
Qed.

End TorchFacts.

(** ** Part 1: the two formulations of a neuron, and the seeded data *)

Module Part1Facts.
Import Torch Part1 TorchFacts.
Open Scope result_scope.



(** C9: the cell that generates the data seeds the generator first, so the
    features, the weights and the bias it returns, and the state it leaves
    the generator in, are the same whatever state the generator was in
    before: they are a function of the seed 7.  The tensors have the shapes
    [(1, 5)], [(1, 5)] and [(1, 1)]. *)
Theorem generate_data_deterministic {G : Type} `{Generator G} (g1 g2 : G) :
  generate_data g1 = generate_data g2
  /\ generate_data g1
     = (let (features, g) := torch_randn [1; 5]%nat (seeded 7) in
        let (weights, g) := torch_randn [1; 5]%nat g in
        let (bias, g) := torch_randn [1; 1]%nat g in
        ((features, weights, bias), g)).
Proof.
  split; [reflexivity|]. unfold generate_data, torch_manual_seed.
  pose proof (torch_randn_wf [1; 5]%nat (seeded 7)) as [Hshape _].
  destruct (torch_randn [1; 5]%nat (seeded 7)) as [features g].
  unfold torch_randn_like. cbn [fst] in Hshape. by rewrite Hshape.
Qed.

End Part1Facts.

(** ** Part 3: the inline networks, the gradient and the training loop *)

Module Part3Facts.
Import Torch Part3 TorchFacts.
Open Scope result_scope.

(** *** The inline networks *)

Lemma Network_forward_shape (m : Part6.network) :
  linear_relu_dropout_log_softmax (Part6.Network_forward m) = true.
Proof.
  unfold Part6.Network_forward.
  induction (Part6.hidden_layers m) as [|l ls IH]; [done|].
  cbn [flat_map app linear_relu_dropout_log_softmax]. exact IH.
Qed.

(** C5, as stated, fails: the network of cell [2] has no dropout between
    its linear layers and no log-softmax after the last one. *)
Lemma inline_network_without_dropout_or_log_softmax :
  linear_relu_dropout_log_softmax model_cell_2 = false
  /\ has_dropout model_cell_2 = false
  /\ (split_output model_cell_2).2 = false.
Proof. repeat split; reflexivity. Qed.

(** C5, amended: each of the four [nn.Sequential] networks is a chain of
    linear layers from 784 inputs to 10 outputs with a [ReLU] between
    consecutive layers and no dropout; the one of cell [2] ends in its last
    linear layer and the other three in [LogSoftmax(dim=1)].  The forward
    pass of [Network], for every list of hidden layers, is linear layers each
    followed by a [ReLU] and dropout, then the output layer and a
    log-softmax. *)
Theorem inline_networks_shape :
  Forall (fun m => linear_relu_chain 784 (split_output m).1 = Some 10%nat
                   /\ has_dropout m = false) inline_networks
  /\ map (fun m => (split_output m).2) inline_networks
     = [false; true; true; true]
  /\ forall m : Part6.network,
       linear_relu_dropout_log_softmax (Part6.Network_forward m) = true.
Proof.
  split; [|split; [reflexivity|apply Network_forward_shape]].
  repeat constructor.
Qed.

(** *** The gradient of the mean of the squares *)



Lemma mean_of_squares_derivative (k x : R) :
  derivable_pt_lim (fun t => (t ^ 2 + k) / 4)%R x (x / 2)%R.
Proof.
  apply (derivable_pt_lim_ext
           (mult_real_fct (/ 4)%R (fun t => t ^ 2)%R + fct_cte (k / 4)%R)%F).
  { intros t. unfold plus_fct, mult_real_fct, fct_cte. field. }
  replace (x / 2)%R with (/ 4 * (INR 2 * x ^ Init.Nat.pred 2) + 0)%R
    by (simpl; field).
  apply derivable_pt_lim_plus; [|apply derivable_pt_lim_const].
  apply derivable_pt_lim_scal, derivable_pt_lim_pow.
Qed.

(** What the backward pass leaves in [x.grad] is, in every entry, the
    partial derivative of [z] in that entry of [x]. *)
Lemma x_grad_is_the_derivative (a b c d : R) :
  derivable_pt_lim (fun t => z_value [t; b; c; d]) a (a / 2)%R
  /\ derivable_pt_lim (fun t => z_value [a; t; c; d]) b (b / 2)%R
  /\ derivable_pt_lim (fun t => z_value [a; b; t; d]) c (c / 2)%R
  /\ derivable_pt_lim (fun t => z_value [a; b; c; t]) d (d / 2)%R.
Proof.
  repeat split.
  - apply (derivable_pt_lim_ext
             (fun t => (t ^ 2 + (b ^ 2 + c ^ 2 + d ^ 2)) / 4)%R);
      [|apply mean_of_squares_derivative].
    intros t. vm_compute. lra.
  - apply (derivable_pt_lim_ext
             (fun t => (t ^ 2 + (a ^ 2 + c ^ 2 + d ^ 2)) / 4)%R);
      [|apply mean_of_squares_derivative].
    intros t. vm_compute. lra.
  - apply (derivable_pt_lim_ext
             (fun t => (t ^ 2 + (a ^ 2 + b ^ 2 + d ^ 2)) / 4)%R);
      [|apply mean_of_squares_derivative].
    intros t. vm_compute. lra.
  - apply (derivable_pt_lim_ext
             (fun t => (t ^ 2 + (a ^ 2 + b ^ 2 + c ^ 2)) / 4)%R);
      [|apply mean_of_squares_derivative].
    intros t. vm_compute. lra.
Qed.

(** *** The training loop *)

Lemma NLLLoss_scalar (input : tensor) (target : list nat) (loss : tensor) :
  NLLLoss input target = ret loss ->
  shape loss = [] /\ exists v, data loss = [v].
Proof.
  unfold NLLLoss. destruct (shape input) as [|n [|c [|]]]; try done.
  destruct (negb _); [done|]. destruct (find _ _); [done|].
  intros [= <-]. split; [done|]. by eexists.
Qed.

Section LoopFacts.
Context {S : Type} `{Training S}.

Lemma follows_mret {A} (a : A) (Q : A -> Prop) :
  Q a -> follows (S:=S) [] Q (mret a).
Proof. intros HQ w. exists []. by rewrite app_nil_r. Qed.

Lemma follows_lift {A} (r : result A) (Q : A -> Prop) :
  (forall a, r = ret a -> Q a) -> follows (S:=S) [] Q (lift r).
Proof.
  intros HQ w. exists []. rewrite app_nil_r. split; [done|]. simpl.
  destruct r; [done|]. split; [done|]. by apply HQ.
Qed.

Lemma follows_calling {A} c f (r : S -> result A) (Q : A -> Prop) :
  (forall s a, r s = ret a -> Q a) -> follows [c] Q (calling c f r).
Proof.
  intros HQ w. exists [c]. unfold calling.
  destruct (r (net w)) eqn:Hr; simpl; [done|].
  split; [done|]. split; [done|]. by eapply HQ.
Qed.

Lemma follows_mbind {A B} e1 e2 (Q1 : A -> Prop) (Q2 : B -> Prop)
  (m : M (session S) A) (k : A -> M (session S) B) :
  follows e1 Q1 m -> (forall a, Q1 a -> follows e2 Q2 (k a)) ->
  follows (e1 ++ e2) Q2 (mbind m k).
Proof.
  intros Hm Hk w. destruct (Hm w) as (d1 & Hlog & Hr). unfold mbind.
  destruct (m w) as [[e|a] w1]; simpl in *.
  - exists d1. split; [done|]. by apply prefix_app_r.
  - destruct Hr as [-> HQ]. destruct (Hk a HQ w1) as (d2 & Hlog2 & Hr2).
    exists (e1 ++ d2). rewrite Hlog2, Hlog, app_assoc. split; [done|].
    destruct ((k a w1).1); [by apply prefix_app|].
    destruct Hr2 as [-> ?]. done.
Qed.

Lemma training_pass_follows (b : batch) (running_loss : R) :
  follows calls_of_pass (fun _ => True) (training_pass b running_loss).
Proof.
  destruct b as [images labels]. unfold training_pass.
  apply (follows_mbind [] calls_of_pass (fun _ => True));
    [by apply follows_lift|].
  intros n _.
  apply (follows_mbind [call_view] _ (fun _ => True));
    [by apply follows_calling|].
  intros images' _.
  apply (follows_mbind [call_zero_grad] _ (fun _ => True));
    [by apply follows_calling|].
  intros _ _.
  apply (follows_mbind [call_forward] _ (fun _ => True));
    [by apply follows_calling|].
  intros logits _.
  apply (follows_mbind [call_criterion] _
           (fun loss => shape loss = [] /\ exists v, data loss = [v])).
  { apply follows_calling. intros _ loss. apply NLLLoss_scalar. }
  intros loss [Hshape [v Hdata]]. rewrite Hshape.
  apply (follows_mbind [call_backward []] _ (fun _ => True));
    [by apply follows_calling|].
  intros _ _.
  apply (follows_mbind [call_step] _ (fun _ => True));
    [by apply follows_calling|].
  intros _ _.
  apply (follows_mbind [call_item] [] (fun _ => True));
    [by apply follows_calling|].
  intros l _. by apply follows_mret.
Qed.

Lemma for_batches_follows (batches : list batch) (running_loss : R) :
  follows (concat (map (fun _ => calls_of_pass) batches)) (fun _ => True)
    (for_batches batches running_loss).
Proof.
  revert running_loss. induction batches as [|b rest IH]; intros running_loss.
  - by apply follows_mret.
  - cbn [for_batches map concat].
    eapply follows_mbind; [apply training_pass_follows|]. intros r _. apply IH.
Qed.

Lemma epoch_follows (batches : list batch) :
  follows (calls_of_epoch batches) (fun _ => True) (epoch batches).
Proof.
  unfold epoch, calls_of_epoch.
  eapply follows_mbind; [apply for_batches_follows|]. intros r _.
  apply (follows_mbind [] [call_print] (fun _ => True));
    [by apply follows_lift|].
  intros _ _. by apply follows_calling.
Qed.

Lemma for_epochs_follows (trainloader : nat -> list batch) (es : list nat) :
  follows (calls_of_run trainloader es) (fun _ => True)
    (for_epochs trainloader es).
Proof.
  induction es as [|e rest IH].
  - by apply follows_mret.
  - cbn [for_epochs]. unfold calls_of_run. cbn [map concat].
    eapply follows_mbind; [apply epoch_follows|]. intros _ _. apply IH.
Qed.

End LoopFacts.

Lemma calls_of_run_scalar (trainloader : nat -> list batch) (es : list nat) :
  Forall backward_of_scalar (calls_of_run trainloader es).
Proof.
  unfold calls_of_run. apply Forall_concat, Forall_map, Forall_forall.
  intros e _. unfold calls_of_epoch. apply Forall_app. split.
  - apply Forall_concat, Forall_map, Forall_forall. intros b _.
    unfold calls_of_pass. repeat constructor.
  - repeat constructor.
Qed.

Lemma steps_of_batches (batches : list batch) :
  List.filter is_step (concat (map (fun _ => calls_of_pass) batches))
  = flat_map (fun _ => five_steps) batches.
Proof.
  induction batches as [|b rest IH]; [done|].
  cbn [map concat flat_map]. by rewrite List.filter_app, IH.
Qed.

Lemma steps_of_run (trainloader : nat -> list batch) (es : list nat) :
  List.filter is_step (calls_of_run trainloader es)
  = flat_map (fun e => flat_map (fun _ => five_steps) (trainloader e)) es.
Proof.
  unfold calls_of_run. induction es as [|e rest IH]; [done|].
  cbn [map concat flat_map]. rewrite List.filter_app, IH. f_equal.
  unfold calls_of_epoch. rewrite List.filter_app, steps_of_batches.
  cbn [List.filter is_step]. by rewrite app_nil_r.
Qed.


(** A run of five epochs of two batches each returns, after ten steps of the
    optimizer and with the calls listed above. *)
Example training_loop_completes :
  let loader := fun _ : nat => [two_images; two_images] in
  let run := training_loop loader (mk_session 0%nat []) in
  run.1 = ret tt /\ net run.2 = 10%nat
  /\ log run.2 = calls_of_run loader (seq 0 epochs).
Proof. vm_compute. done. Qed.

End Part3Facts.

(** ** Part 6: the checkpoint and its reloading *)

Module Part6Facts.
Import Torch Part6 TorchFacts.
Open Scope result_scope.

(** *** The names of the parameters *)

Lemma app_String (c : ascii) (s t : string) :
  String c s +:+ t = String c (s +:+ t).
Proof. reflexivity. Qed.

Lemma app_Empty (t : string) : EmptyString +:+ t = t.
Proof. reflexivity. Qed.

Lemma string_app_assoc (s t u : string) : (s +:+ t) +:+ u = s +:+ (t +:+ u).
Proof. induction s as [|c s IH]; [done|]. by rewrite !app_String, IH. Qed.

Lemma split_at_dot (a b s t : string) :
  no_dot a -> no_dot b ->
  a +:+ String "." s = b +:+ String "." t -> a = b /\ s = t.
Proof.
  revert b. induction a as [|c a IH]; intros [|d b] Ha Hb;
    rewrite ?app_String, ?app_Empty; intros Heq; simplify_eq.
  - done.
  - by destruct Hb.
  - by destruct Ha.
  - destruct Ha as [_ Ha], Hb as [_ Hb].
    destruct (IH b Ha Hb) as [-> ->]; done.
Qed.

Lemma pretty_N_go_no_dot (x : N) (s : string) :
  no_dot s -> no_dot (pretty_N_go x s).
Proof.
  revert s. induction (N.lt_wf_0 x) as [x _ IH]; intros s Hs.
  assert (x = 0 \/ 0 < x)%N as [->|Hx] by lia.
  - by rewrite pretty_N_go_0.
  - rewrite pretty_N_go_step by done. apply IH; [by apply N.div_lt|].
    split; [|done]. unfold pretty_N_char. by repeat case_match.
Qed.

Lemma pretty_nat_no_dot (k : nat) : no_dot (pretty k).
Proof.
  unfold pretty, pretty_nat, pretty, pretty_N. case_decide; [by simpl|].
  by apply pretty_N_go_no_dot.
Qed.

Lemma hidden_key_inj (j k : nat) (p q : string) :
  hidden_prefix j +:+ String "." p = hidden_prefix k +:+ String "." q ->
  j = k /\ p = q.
Proof.
  unfold hidden_prefix. rewrite !string_app_assoc. intros Heq.
  apply (inj (String.app "hidden_layers.")) in Heq.
  apply split_at_dot in Heq as [Heq ->]; try apply pretty_nat_no_dot.
  by apply (inj pretty) in Heq.
Qed.

Lemma hidden_key_not_output (k : nat) (p q : string) :
  hidden_prefix k +:+ p <> "output" +:+ q.
Proof.
  unfold hidden_prefix. rewrite string_app_assoc. intros Heq.
  apply (f_equal (fun s => String.get 0 s)) in Heq. lazy in Heq. discriminate.
Qed.

(** *** Looking parameters up and loading them *)

Lemma get_here (key : string) (t : tensor) (rest : state_dict) :
  get key ((key, t) :: rest) = Some t.
Proof. cbn [get]. by rewrite String.eqb_refl. Qed.

Lemma get_later (k key : string) (t : tensor) (rest : state_dict) :
  k <> key -> get key ((k, t) :: rest) = get key rest.
Proof. intros Hne. cbn [get]. by apply String.eqb_neq in Hne as ->. Qed.

Lemma weight_key_not_bias_key (prefix : string) :
  prefix +:+ ".weight" <> prefix +:+ ".bias".
Proof. intros Heq. by apply (inj (String.app prefix)) in Heq. Qed.

Lemma get_hidden_state (tl : state_dict) (ls : list Linear) :
  forall (k0 j : nat) (l : Linear),
    ls !! j = Some l ->
    get (hidden_prefix (k0 + j) +:+ ".weight") (hidden_state k0 ls ++ tl)
      = Some (weight l)
    /\ get (hidden_prefix (k0 + j) +:+ ".bias") (hidden_state k0 ls ++ tl)
      = Some (bias l).
Proof.
  induction ls as [|a ls IH]; intros k0 [|j] l Hl; cbn in Hl; simplify_eq;
    cbn [hidden_state linear_state app].
  - rewrite Nat.add_0_r, get_here, get_later, get_here; [done|].
    apply weight_key_not_bias_key.
  - rewrite <- Nat.add_succ_comm.
    rewrite !(get_later (hidden_prefix k0 +:+ _)); [by apply IH|..];
      intros Heq; apply hidden_key_inj in Heq as [? _]; lia.
Qed.

Lemma get_output (out : Linear) (ls : list Linear) (k0 : nat) :
  get ("output" +:+ ".weight") (hidden_state k0 ls ++ linear_state "output" out)
    = Some (weight out)
  /\ get ("output" +:+ ".bias") (hidden_state k0 ls ++ linear_state "output" out)
    = Some (bias out).
Proof.
  revert k0. induction ls as [|a ls IH]; intros k0.
  - split; [apply get_here|]. unfold linear_state. cbn [hidden_state app].
    rewrite get_later, get_here; [done|]. apply weight_key_not_bias_key.
  - cbn [hidden_state app linear_state].
    rewrite !(get_later (hidden_prefix k0 +:+ _)); [apply IH|..];
      apply hidden_key_not_output.
Qed.

Lemma load_param_fits (key : string) (param t : tensor) (sd : state_dict) :
  get key sd = Some t -> shape t = shape param ->
  load_param key param sd = (t, [], []).
Proof.
  intros Hget Hshape. unfold load_param, shape_eqb. rewrite Hget.
  rewrite bool_decide_eq_true_2 by done. rewrite <- Hshape. by destruct t.
Qed.

Lemma load_linear_fits (prefix : string) (i o : nat) (n m : Linear)
  (sd : state_dict) :
  is_Linear i o n -> is_Linear i o m ->
  get (prefix +:+ ".weight") sd = Some (weight m) ->
  get (prefix +:+ ".bias") sd = Some (bias m) ->
  load_linear prefix n sd = (m, [], []).
Proof.
  intros (Hni & Hno & Hnw & Hnb) (Hmi & Hmo & Hmw & Hmb) Hw Hb.
  unfold load_linear.
  rewrite (load_param_fits _ _ _ _ Hw), (load_param_fits _ _ _ _ Hb) by congruence.
  rewrite Hni, Hno, <- Hmi, <- Hmo. by destruct m.
Qed.

Lemma load_hidden_fits (sd : state_dict) (hidden : list nat) :
  forall (width k0 : nat) (ns ms : list Linear),
    hidden_chain width hidden ns -> hidden_chain width hidden ms ->
    (forall j l, ms !! j = Some l ->
       get (hidden_prefix (k0 + j) +:+ ".weight") sd = Some (weight l)
       /\ get (hidden_prefix (k0 + j) +:+ ".bias") sd = Some (bias l)) ->
    load_hidden k0 ns sd = (ms, [], []).
Proof.
  induction hidden as [|h hidden IH]; intros width k0 [|n ns] [|m ms] Hn Hm Hget;
    try done.
  destruct Hn as [Hn Hns], Hm as [Hm Hms]. cbn [load_hidden].
  destruct (Hget 0 m eq_refl) as [Hw Hb]. rewrite Nat.add_0_r in Hw, Hb.
  rewrite (load_linear_fits _ _ _ _ _ _ Hn Hm Hw Hb).
  rewrite (IH h (S k0) ns ms Hns Hms); [done|].
  intros j l Hl. rewrite Nat.add_succ_comm. by apply (Hget (S j)).
Qed.

Lemma hidden_chain_length (hidden : list nat) :
  forall (width : nat) (ls : list Linear),
    hidden_chain width hidden ls -> length ls = length hidden.
Proof.
  induction hidden as [|h hidden IH]; intros width [|l ls] Hc; try done.
  destruct Hc as [_ Hc]. cbn [length]. f_equal. by eapply IH.
Qed.

Lemma keys_hidden_state (ls ls' : list Linear) :
  length ls = length ls' ->
  forall k0, keys (hidden_state k0 ls) = keys (hidden_state k0 ls').
Proof.
  revert ls'. induction ls as [|l ls IH]; intros [|l' ls'] Hlen k0; try done.
  unfold keys in *. cbn [hidden_state linear_state app map fst].
  do 2 f_equal. apply IH. by injection Hlen.
Qed.

Lemma keys_network_state_dict (n m : network) :
  length (hidden_layers n) = length (hidden_layers m) ->
  keys (network_state_dict n) = keys (network_state_dict m).
Proof.
  intros Hlen. unfold network_state_dict, keys. rewrite !map_app.
  f_equal. by apply keys_hidden_state.
Qed.

Lemma no_unexpected_keys (expected : list string) :
  List.filter (fun k => negb (bool_decide (k ∈ expected))) expected = [].
Proof.
  assert (Hsub : forall l, (forall k, k ∈ l -> k ∈ expected) ->
            List.filter (fun k => negb (bool_decide (k ∈ expected))) l = []).
  { induction l as [|k l IH]; intros Hl; [done|]. cbn [List.filter].
    rewrite bool_decide_eq_true_2 by (apply Hl; left). cbn [negb].
    apply IH. intros k' Hk'. apply Hl. by right. }
  by apply Hsub.
Qed.

(** Loading the state dict of a network into a network of the same
    architecture copies every parameter. *)
Lemma load_state_dict_fits (i o : nat) (hidden : list nat) (n m : network) :
  has_architecture i o hidden n -> has_architecture i o hidden m ->
  load_state_dict n (network_state_dict m)
  = (mk_network (hidden_layers m) (output m) (dropout n),
     ret (mk_IncompatibleKeys [] [])).
Proof.
  intros [Hnh Hno] [Hmh Hmo]. unfold load_state_dict.
  rewrite (load_hidden_fits _ hidden i 0 _ (hidden_layers m) Hnh Hmh).
  2:{ intros j l Hl. by apply get_hidden_state. }
  destruct (get_output (output m) (hidden_layers m) 0) as [Hw Hb].
  fold (network_state_dict m) in Hw, Hb.
  rewrite (load_linear_fits _ _ _ _ _ _ Hno Hmo Hw Hb).
  rewrite (keys_network_state_dict n m), no_unexpected_keys; [done|].
  by rewrite (hidden_chain_length _ _ _ Hnh), (hidden_chain_length _ _ _ Hmh).
Qed.

(** *** Building a network and reading a checkpoint *)

Section WorldFacts.
Context {G : Type} `{Generator G}.

Lemma nn_Linear_returns (i o : nat) (w : world G) :
  exists (l : Linear) (g : G),
    nn_Linear i o w = (ret l, mk_world (files w) g) /\ is_Linear i o l.
Proof.
  unfold nn_Linear. destruct (draws uniform (o * i) (rng w)) as [ws g1].
  destruct (draws uniform o g1) as [bs g2]. by eexists _, _.
Qed.

Lemma Network_hidden_returns (hidden : list nat) :
  forall (width : nat) (w : world G),
    exists (ls : list Linear) (g : G),
      Network_hidden width hidden w = (ret ls, mk_world (files w) g)
      /\ hidden_chain width hidden ls.
Proof.
  induction hidden as [|h hidden IH]; intros width w.
  - exists [], (rng w). by destruct w.
  - destruct (nn_Linear_returns width h w) as (l & g1 & Hl & Hfits).
    destruct (IH h (mk_world (files w) g1)) as (ls & g2 & Hls & Hchain).
    exists (l :: ls), g2. cbn [Network_hidden].
    rewrite (mbind_returns _ _ _ _ _ Hl), (mbind_returns _ _ _ _ _ Hls). done.
Qed.

Lemma Network_returns (i o : nat) (hidden : list nat) (w : world G) :
  exists (m : network) (g : G),
    Network i o hidden w = (ret m, mk_world (files w) g)
    /\ has_architecture i o hidden m /\ dropout m = (1 / 2)%R.
Proof.
  destruct (Network_hidden_returns hidden i w) as (ls & g1 & Hls & Hchain).
  destruct (nn_Linear_returns (List.last hidden i) o (mk_world (files w) g1))
    as (out & g2 & Hout & Hfits).
  exists (mk_network ls out (1 / 2)), g2. unfold Network, Network_with.
  rewrite (mbind_returns _ _ _ _ _ Hls), (mbind_returns _ _ _ _ _ Hout). done.
Qed.

Lemma checkpoint_dict_fields (i o : nat) (hidden : list nat) (sd : state_dict) :
  let d := py_dict (checkpoint_dict i o hidden sd) in
  getitem d "input_size" = ret (py_int i)
  /\ getitem d "output_size" = ret (py_int o)
  /\ getitem d "hidden_layers" = ret (py_list hidden)
  /\ getitem d "state_dict" = ret (py_state_dict sd).
Proof. unfold getitem, checkpoint_dict. by simplify_map_eq. Qed.

(** What [load_checkpoint] does with a file that holds such a dictionary. *)
Lemma load_checkpoint_unfold (path : string) (w : world G) (i o : nat)
  (hidden : list nat) (sd : state_dict) :
  files w !! path = Some (py_dict (checkpoint_dict i o hidden sd)) ->
  load_checkpoint path w
  = let (r, w') := Network i o hidden w in
    (let* model := r in
     let (model, r) := load_state_dict model sd in
     let* _ := r in ret model, w').
Proof.
  intros Hfile.
  destruct (checkpoint_dict_fields i o hidden sd) as (Hi & Ho & Hh & Hsd).
  destruct (Network_returns i o hidden w) as (m & g & Hm & _).
  unfold load_checkpoint.
  rewrite (mbind_returns _ _ w w (py_dict (checkpoint_dict i o hidden sd)))
    by (unfold torch_load; by rewrite Hfile).
  rewrite Hm.
  rewrite (mbind_returns _ _ w w i) by (unfold lift; by rewrite Hi).
  rewrite (mbind_returns _ _ w w o) by (unfold lift; by rewrite Ho).
  rewrite (mbind_returns _ _ w w hidden) by (unfold lift; by rewrite Hh).
  rewrite (mbind_returns _ _ _ _ _ Hm).
  rewrite (mbind_returns _ _ _ _ sd) by (unfold lift; by rewrite Hsd).
  unfold mbind, lift, mret. cbn [bind ret].
  destruct (load_state_dict m sd) as [m' [e|r]]; done.
Qed.

End WorldFacts.

(** *** What loading reports and what it preserves *)

Lemma hidden_chain_out_features (hidden : list nat) :
  forall (width : nat) (ls : list Linear),
    hidden_chain width hidden ls -> map out_features ls = hidden.
Proof.
  induction hidden as [|h hidden IH]; intros width [|l ls] Hc; try done.
  destruct Hc as [(_ & Ho & _) Hc]. cbn [map]. by rewrite Ho, (IH h ls Hc).
Qed.

Lemma hidden_chain_in_features (hidden : list nat) :
  forall (width : nat) (ls : list Linear),
    hidden_chain width hidden ls ->
    map in_features ls = removelast (width :: hidden).
Proof.
  induction hidden as [|h hidden IH]; intros width [|l ls] Hc; try done.
  destruct Hc as [(Hi & _) Hc]. cbn [map]. rewrite Hi, (IH h ls Hc). done.
Qed.

Lemma load_param_reports (key : string) (param t : tensor) (sd : state_dict) :
  get key sd = Some t -> shape t <> shape param ->
  errors_of (load_param key param sd)
  = [size_mismatch key (shape t) (shape param)].
Proof.
  intros Hget Hne. unfold load_param, shape_eqb. rewrite Hget.
  by rewrite bool_decide_eq_false_2.
Qed.

Lemma errors_of_load_linear (prefix : string) (l : Linear) (sd : state_dict) :
  errors_of (load_linear prefix l sd)
  = errors_of (load_param (prefix +:+ ".weight") (weight l) sd)
    ++ errors_of (load_param (prefix +:+ ".bias") (bias l) sd).
Proof.
  unfold load_linear.
  destruct (load_param (prefix +:+ ".weight") _ _) as [[? ?] ?].
  by destruct (load_param (prefix +:+ ".bias") _ _) as [[? ?] ?].
Qed.

Lemma errors_of_load_hidden (k : nat) (l : Linear) (ls : list Linear)
  (sd : state_dict) :
  errors_of (load_hidden k (l :: ls) sd)
  = errors_of (load_linear (hidden_prefix k) l sd)
    ++ errors_of (load_hidden (S k) ls sd).
Proof.
  cbn [load_hidden].
  destruct (load_linear (hidden_prefix k) l sd) as [[? ?] ?].
  by destruct (load_hidden (S k) ls sd) as [[? ?] ?].
Qed.

Section Mismatch.
Variables (sd : state_dict) (key : string) (t p : tensor).
Hypothesis Hsd : get key sd = Some t.
Hypothesis Hshape : shape t <> shape p.

Lemma load_linear_reports (prefix : string) (l : Linear) (tl : state_dict) :
  get key (linear_state prefix l ++ tl) = Some p ->
  In (size_mismatch key (shape t) (shape p))
     (errors_of (load_linear prefix l sd))
  \/ get key tl = Some p.
Proof.
  unfold linear_state. cbn [app get]. rewrite errors_of_load_linear.
  destruct (String.eqb_spec (prefix +:+ ".weight") key) as [<-|_].
  { intros [= <-]. left. apply in_or_app. left.
    rewrite (load_param_reports _ _ t) by done. by left. }
  destruct (String.eqb_spec (prefix +:+ ".bias") key) as [<-|_].
  { intros [= <-]. left. apply in_or_app. right.
    rewrite (load_param_reports _ _ t) by done. by left. }
  by right.
Qed.

Lemma load_hidden_reports (tl : state_dict) (ls : list Linear) :
  forall k0,
    get key (hidden_state k0 ls ++ tl) = Some p ->
    In (size_mismatch key (shape t) (shape p))
       (errors_of (load_hidden k0 ls sd))
    \/ get key tl = Some p.
Proof.
  induction ls as [|l ls IH]; intros k0; [by right|].
  cbn [hidden_state]. rewrite <- app_assoc. intros Hget.
  rewrite errors_of_load_hidden.
  apply load_linear_reports in Hget as [Hin|Hget].
  - left. apply in_or_app. by left.
  - apply IH in Hget as [Hin|Hget]; [|by right].
    left. apply in_or_app. by right.
Qed.

Lemma load_state_dict_reports (m : network) :
  get key (network_state_dict m) = Some p ->
  exists msgs,
    (load_state_dict m sd).2 = raise (RuntimeError_loading_state_dict msgs)
    /\ In (size_mismatch key (shape t) (shape p)) msgs.
Proof.
  unfold network_state_dict. intros Hget.
  assert (Hin : In (size_mismatch key (shape t) (shape p))
                  (errors_of (load_hidden 0 (hidden_layers m) sd)
                   ++ errors_of (load_linear "output" (output m) sd))).
  { apply in_or_app. apply load_hidden_reports in Hget as [Hin|Hget]; [by left|].
    right. rewrite <- (app_nil_r (linear_state _ _)) in Hget.
    by apply load_linear_reports in Hget as [Hin|Hget]. }
  unfold load_state_dict, errors_of in *.
  destruct (load_hidden 0 (hidden_layers m) sd) as [[hs e1] m1].
  destruct (load_linear "output" (output m) sd) as [[out e2] m2].
  cbn [fst snd] in *.
  match goal with |- context [report missing_key_s ?a ++ report unexpected_key_s ?b ++ _] =>
    set (msgs := report missing_key_s a ++ report unexpected_key_s b ++ (e1 ++ e2)) end.
  assert (Hmsgs : In (size_mismatch key (shape t) (shape p)) msgs).
  { unfold msgs. apply in_or_app. right. apply in_or_app. by right. }
  exists msgs. split; [|done]. by destruct msgs.
Qed.

End Mismatch.

Lemma load_param_shape (key : string) (param : tensor) (sd : state_dict) :
  shape (load_param key param sd).1.1 = shape param.
Proof.
  unfold load_param. destruct (get key sd) as [t|]; [|done].
  by destruct (shape_eqb _ _).
Qed.

Lemma load_linear_is_Linear (prefix : string) (i o : nat) (l : Linear)
  (sd : state_dict) :
  is_Linear i o l -> is_Linear i o (load_linear prefix l sd).1.1.
Proof.
  intros (Hi & Ho & Hw & Hb). unfold load_linear.
  pose proof (load_param_shape (prefix +:+ ".weight") (weight l) sd) as Hw'.
  pose proof (load_param_shape (prefix +:+ ".bias") (bias l) sd) as Hb'.
  destruct (load_param (prefix +:+ ".weight") _ _) as [[w ?] ?].
  destruct (load_param (prefix +:+ ".bias") _ _) as [[b ?] ?].
  cbn in *. unfold is_Linear; cbn. by rewrite Hw', Hb'.
Qed.

Lemma load_hidden_chain (sd : state_dict) (hidden : list nat) :
  forall (width k0 : nat) (ls : list Linear),
    hidden_chain width hidden ls ->
    hidden_chain width hidden (load_hidden k0 ls sd).1.1.
Proof.
  induction hidden as [|h hidden IH]; intros width k0 [|l ls] Hc; try done.
  destruct Hc as [Hl Hc]. cbn [load_hidden].
  pose proof (load_linear_is_Linear (hidden_prefix k0) width h l sd Hl) as Hl'.
  pose proof (IH h (S k0) ls Hc) as Hc'.
  destruct (load_linear (hidden_prefix k0) l sd) as [[l' ?] ?].
  destruct (load_hidden (S k0) ls sd) as [[ls' ?] ?]. done.
Qed.

Lemma load_state_dict_architecture (i o : nat) (hidden : list nat)
  (m : network) (sd : state_dict) :
  has_architecture i o hidden m ->
  has_architecture i o hidden (load_state_dict m sd).1
  /\ dropout (load_state_dict m sd).1 = dropout m.
Proof.
  intros [Hh Ho]. unfold load_state_dict.
  pose proof (load_hidden_chain sd hidden i 0 _ Hh) as Hh'.
  pose proof (load_linear_is_Linear "output" _ _ _ sd Ho) as Ho'.
  destruct (load_hidden 0 (hidden_layers m) sd) as [[hs ?] ?].
  by destruct (load_linear "output" (output m) sd) as [[out ?] ?].
Qed.

Lemma checkpoint_of_dict (m : network) :
  checkpoint_of m
  = checkpoint_dict 784 10 (map out_features (hidden_layers m))
      (network_state_dict m).
Proof. reflexivity. Qed.


Lemma first_weight_shape (i o h : nat) (hidden : list nat) (m : network) :
  has_architecture i o (h :: hidden) m ->
  exists p : tensor,
    get "hidden_layers.0.weight" (network_state_dict m) = Some p
    /\ shape p = [h; i].
Proof.
  intros [Hh _]. destruct (hidden_layers m) as [|l ls] eqn:Hls; [done|].
  destruct Hh as [(_ & _ & Hw & _) _]. exists (weight l). split; [|done].
  unfold network_state_dict. rewrite Hls.
  by destruct (get_hidden_state (linear_state "output" (output m))
                 (l :: ls) 0 0 l eq_refl) as [Hget _].
Qed.

Lemma checkpoint_of_no_float (m : network) (key : string) (x : R) :
  checkpoint_of m !! key <> Some (py_float x).
Proof.
  unfold checkpoint_of. rewrite !lookup_insert. by repeat case_decide.
Qed.

Section Claims.
Context {G : Type} `{Generator G}.

(** A call of [load_checkpoint] that returns has read a dictionary with the
    four fields, built the network they describe and loaded the state dict
    into it without error. *)
Lemma load_checkpoint_returns (path : string) (w w' : world G) (m : network) :
  load_checkpoint path w = (ret m, w') ->
  exists (d : gmap string pyobj) (i o : nat) (hidden : list nat)
         (sd : state_dict) (n : network) (r : IncompatibleKeys),
    files w !! path = Some (py_dict d)
    /\ d !! "input_size" = Some (py_int i)
    /\ d !! "output_size" = Some (py_int o)
    /\ d !! "hidden_layers" = Some (py_list hidden)
    /\ d !! "state_dict" = Some (py_state_dict sd)
    /\ Network i o hidden w = (ret n, w')
    /\ has_architecture i o hidden n /\ dropout n = (1 / 2)%R
    /\ load_state_dict n sd = (m, ret r).
Proof.
  unfold load_checkpoint, mbind, torch_load, lift.
  destruct (files w !! path) as [[| | | |d]|] eqn:Hfile; try done.
  cbn [getitem bind ret].
  destruct (d !! "input_size") as [[i| | | |]|] eqn:Hi; try done.
  destruct (d !! "output_size") as [[o| | | |]|] eqn:Ho; try done.
  destruct (d !! "hidden_layers") as [[| |hidden| |]|] eqn:Hh; try done.
  cbn [as_int as_list bind ret].
  destruct (Network_returns i o hidden w) as (n & g & Hn & Harch & Hdrop).
  rewrite Hn.
  destruct (d !! "state_dict") as [[| | |sd|]|] eqn:Hsd; try done.
  cbn [as_state_dict bind ret].
  destruct (load_state_dict n sd) as [m' [e|r]] eqn:Hload; [done|].
  cbn [bind ret mret]. intros [= <- <-].
  by exists d, i, o, hidden, sd, n, r.
Qed.

(** Saving the checkpoint of a network and loading it again. *)
Lemma load_checkpoint_of_saved (w : world G) (path : string) (i o : nat)
  (hidden : list nat) (m : network) :
  has_architecture i o hidden m ->
  let checkpoint :=
    checkpoint_dict i o (map out_features (hidden_layers m))
      (network_state_dict m) in
  let w1 := (torch_save (py_dict checkpoint) path w).2 in
  exists (m' : network) (w2 : world G),
    load_checkpoint path w1 = (ret m', w2)
    /\ files w2 = files w1
    /\ has_architecture i o hidden m'
    /\ map out_features (hidden_layers m') = hidden
    /\ network_state_dict m' = network_state_dict m
    /\ hidden_layers m' = hidden_layers m
    /\ output m' = output m.
Proof.
  intros Harch checkpoint w1. pose proof Harch as [Hh Ho].
  assert (Hfile : files w1 !! path
                  = Some (py_dict (checkpoint_dict i o hidden
                                     (network_state_dict m)))).
  { unfold w1, torch_save, checkpoint. cbn [snd files].
    by rewrite lookup_insert_eq, (hidden_chain_out_features _ _ _ Hh). }
  rewrite (load_checkpoint_unfold _ _ _ _ _ _ Hfile).
  destruct (Network_returns i o hidden w1) as (n & g & -> & Hn & _).
  rewrite bind_ret, (load_state_dict_fits _ _ _ _ _ Hn Harch).
  eexists _, _. split; [reflexivity|]. split; [done|].
  unfold has_architecture, network_state_dict. cbn [hidden_layers output].
  split; [done|]. split; [by eapply hidden_chain_out_features|].
  by repeat split.
Qed.

(** C1: a network with input size [i], hidden sizes [hidden] and output
    size [o], whatever the entries of its parameters, that is saved as the
    mapping of its input size, output size, hidden sizes and state dict is
    reconstructed by [load_checkpoint]: the call returns a model with these
    sizes whose state dict, layers and parameters are the saved ones.  So
    it is in the notebook, where cell [20] writes the sizes 784 and 10 of the
    model that the notebook built, and cell [22] loads it. *)
Theorem checkpoint_round_trip :
  (forall (w : world G) (path : string) (i o : nat) (hidden : list nat)
          (m : network),
     has_architecture i o hidden m ->
     let checkpoint :=
       checkpoint_dict i o (map out_features (hidden_layers m))
         (network_state_dict m) in
     exists (m' : network) (w2 : world G),
       load_checkpoint path (torch_save (py_dict checkpoint) path w).2
       = (ret m', w2)
       /\ has_architecture i o hidden m'
       /\ map out_features (hidden_layers m') = hidden
       /\ network_state_dict m' = network_state_dict m
       /\ hidden_layers m' = hidden_layers m
       /\ output m' = output m)
  /\ (forall (nb : notebook G) (hidden : list nat),
        has_architecture 784 10 hidden (model nb) ->
        exists nb2 : notebook G,
          cell_22 (cell_20 nb).2 = (ret tt, nb2)
          /\ files (os (cell_20 nb).2) !! "checkpoint.pth"
             = Some (py_dict
                       (checkpoint_dict 784 10
                          (map out_features (hidden_layers (model nb2)))
                          (network_state_dict (model nb2))))
          /\ has_architecture 784 10 hidden (model nb2)
          /\ map out_features (hidden_layers (model nb2)) = hidden
          /\ network_state_dict (model nb2) = network_state_dict (model nb)
          /\ hidden_layers (model nb2) = hidden_layers (model nb)
          /\ output (model nb2) = output (model nb)).
Proof.
  split.
  - intros w path i o hidden m Harch checkpoint.
    destruct (load_checkpoint_of_saved w path i o hidden m Harch)
      as (m' & w2 & Hload & _ & Hrest).
    by exists m', w2.
  - intros nb hidden Harch.
    destruct (load_checkpoint_of_saved (os nb) "checkpoint.pth" 784 10
                hidden (model nb) Harch)
      as (m' & w2 & Hload & _ & Ha & Hsizes & Hsd & Hh & Ho).
    unfold cell_20, cell_22, torch_save in *. cbn [snd os fst] in *.
    rewrite checkpoint_of_dict, Hload.
    eexists. split; [reflexivity|]. cbn [model files].
    split; [|done]. by rewrite lookup_insert_eq, Hsd, Hh.
Qed.

(** C2: when the state dict holds, under the key of a parameter of the
    model, a tensor of another shape, [load_state_dict] raises the
    framework's [RuntimeError], which names that key and the two shapes; and
    whatever [load_state_dict] raises on the network that [load_checkpoint]
    has built, [load_checkpoint] raises too, the same exception, with the
    files as they were. *)
Theorem size_mismatch_raises_and_propagates :
  (forall (m : network) (sd : state_dict) (key : string) (t p : tensor),
     get key sd = Some t ->
     get key (network_state_dict m) = Some p ->
     shape t <> shape p ->
     exists msgs : list load_error,
       In (size_mismatch key (shape t) (shape p)) msgs
       /\ (load_state_dict m sd).2
          = raise (RuntimeError_loading_state_dict msgs))
  /\ (forall (w : world G) (path : string) (i o : nat) (hidden : list nat)
             (sd : state_dict),
        files w !! path = Some (py_dict (checkpoint_dict i o hidden sd)) ->
        exists (m : network) (w' : world G),
          Network i o hidden w = (ret m, w')
          /\ files w' = files w
          /\ forall e : exception,
               (load_state_dict m sd).2 = raise e ->
               load_checkpoint path w = (raise e, w')).
Proof.
  split.
  - intros m sd key t p Hsd Hp Hne.
    destruct (load_state_dict_reports sd key t p Hsd Hne m Hp)
      as (msgs & Hr & Hin).
    by exists msgs.
  - intros w path i o hidden sd Hfile.
    destruct (Network_returns i o hidden w) as (m & g & Hm & _).
    exists m, (mk_world (files w) g). split; [done|]. split; [done|].
    intros e He.
    rewrite (load_checkpoint_unfold _ _ _ _ _ _ Hfile), Hm, bind_ret.
    destruct (load_state_dict m sd) as [m' r]. cbn [snd] in He.
    by rewrite He.
Qed.

(** C6: for every input size, output size and list of hidden sizes, the
    constructor returns a network whose hidden layers have exactly the
    listed sizes at their outputs, in that order, each one as wide at its
    input as the one before it at its output, from the input size on; the
    output layer goes from the last of these widths to the output size.  A
    model that [load_checkpoint] returns has the hidden sizes of the
    checkpoint's field ['hidden_layers'], chained in the same way from its
    ['input_size'] to its ['output_size']. *)
Theorem Network_hidden_layer_sizes :
  (forall (i o : nat) (hidden : list nat) (w : world G),
     exists (m : network) (w' : world G),
       Network i o hidden w = (ret m, w')
       /\ map out_features (hidden_layers m) = hidden
       /\ map in_features (hidden_layers m) = removelast (i :: hidden)
       /\ in_features (output m) = List.last hidden i
       /\ out_features (output m) = o
       /\ has_architecture i o hidden m)
  /\ (forall (path : string) (w w' : world G) (m : network),
        load_checkpoint path w = (ret m, w') ->
        exists (d : gmap string pyobj) (i o : nat) (hidden : list nat),
          files w !! path = Some (py_dict d)
          /\ d !! "input_size" = Some (py_int i)
          /\ d !! "output_size" = Some (py_int o)
          /\ d !! "hidden_layers" = Some (py_list hidden)
          /\ map out_features (hidden_layers m) = hidden
          /\ map in_features (hidden_layers m) = removelast (i :: hidden)
          /\ has_architecture i o hidden m).
Proof.
  split.
  - intros i o hidden w.
    destruct (Network_returns i o hidden w) as (m & g & Hm & Harch & _).
    exists m, (mk_world (files w) g). split; [done|].
    pose proof Harch as [Hh (Hi & Ho & _)].
    split; [by eapply hidden_chain_out_features|].
    split; [by apply hidden_chain_in_features|]. done.
  - intros path w w' m Hload.
    destruct (load_checkpoint_returns _ _ _ _ Hload)
      as (d & i & o & hidden & sd & n & r & Hfile & Hi & Ho & Hh & _ & _
          & Harch & _ & Hm).
    destruct (load_state_dict_architecture i o hidden n sd Harch) as [Ha _].
    rewrite Hm in Ha. cbn [fst] in Ha.
    exists d, i, o, hidden. do 4 (split; [done|]).
    pose proof Ha as [Hc _].
    split; [by eapply hidden_chain_out_features|].
    split; [by apply hidden_chain_in_features|]. done.
Qed.

(** C7: cell [7], [torch.save(model.state_dict(), 'checkpoint.pth')],
    returns and changes nothing but the file of that name: the model, the
    notebook's other variables, the generator and every other file are as
    before.  The file holds the state dict as [torch.load] returns it, and
    cell [10] reads it back into the variable [state_dict] without changing
    the files.  The same holds of cell [20], which binds the variable
    [checkpoint] to the dictionary and saves it. *)
Theorem saving_only_writes_the_file (nb : notebook G) :
  let nb' := (cell_7 nb).2 in
  let nb'' := (cell_20 nb).2 in
  ((cell_7 nb).1 = ret tt
   /\ model nb' = model nb
   /\ state_dict_var nb' = state_dict_var nb
   /\ checkpoint_var nb' = checkpoint_var nb
   /\ rng (os nb') = rng (os nb)
   /\ (forall path : string, path <> "checkpoint.pth" ->
         files (os nb') !! path = files (os nb) !! path)
   /\ torch_load "checkpoint.pth" (os nb')
      = (ret (py_state_dict (network_state_dict (model nb))), os nb')
   /\ cell_10 nb'
      = (ret tt,
         mk_notebook (model nb)
           (Some (py_state_dict (network_state_dict (model nb))))
           (checkpoint_var nb) (os nb')))
  /\ ((cell_20 nb).1 = ret tt
      /\ model nb'' = model nb
      /\ state_dict_var nb'' = state_dict_var nb
      /\ checkpoint_var nb'' = Some (py_dict (checkpoint_of (model nb)))
      /\ rng (os nb'') = rng (os nb)
      /\ (forall path : string, path <> "checkpoint.pth" ->
            files (os nb'') !! path = files (os nb) !! path)
      /\ torch_load "checkpoint.pth" (os nb'')
         = (ret (py_dict (checkpoint_of (model nb))), os nb'')).
Proof.
  unfold cell_7, cell_10, cell_20, torch_save, torch_load.
  cbn [os model state_dict_var checkpoint_var files rng fst snd].
  rewrite !lookup_insert_eq.
  split; repeat (split; [done|]);
    (split; [|done]); intros path Hne; by rewrite lookup_insert_ne.
Qed.

(** C4, amended: the dictionary of cell [20] has exactly the four fields
    ['input_size'], ['output_size'], ['hidden_layers'] and ['state_dict'],
    with the values 784, 10, the output sizes of the model's hidden layers
    and the model's state dict.  No field holds a dropout probability, and
    every model that [load_checkpoint] returns has the dropout probability
    0.5 of the constructor. *)
Theorem checkpoint_fields (m : network) :
  dom (checkpoint_of m)
  = {["input_size"; "output_size"; "hidden_layers"; "state_dict"]}
  /\ checkpoint_of m !! "input_size" = Some (py_int 784)
  /\ checkpoint_of m !! "output_size" = Some (py_int 10)
  /\ checkpoint_of m !! "hidden_layers"
     = Some (py_list (map out_features (hidden_layers m)))
  /\ checkpoint_of m !! "state_dict"
     = Some (py_state_dict (network_state_dict m))
  /\ (forall (key : string) (x : R),
        checkpoint_of m !! key <> Some (py_float x))
  /\ (forall (path : string) (w w' : world G) (m' : network),
        load_checkpoint path w = (ret m', w') -> dropout m' = (1 / 2)%R).
Proof.
  split.
  { unfold checkpoint_of. rewrite !dom_insert_L, dom_empty_L. set_solver. }
  repeat (split; [done|]). split; [apply checkpoint_of_no_float|].
  intros path w w' m' Hload.
  destruct (load_checkpoint_returns _ _ _ _ Hload)
    as (d & i & o & hidden & sd & n & r & _ & _ & _ & _ & _ & _
        & Harch & Hdrop & Hm).
  destruct (load_state_dict_architecture i o hidden n sd Harch) as [_ Hd].
  rewrite Hm in Hd. cbn [fst] in Hd. by rewrite Hd.
Qed.

End Claims.

Lemma checkpoint_round_trip_witness :
  has_architecture 784 10 [3] (model notebook_0)
  /\ exists nb2 : notebook nat,
       cell_22 (cell_20 notebook_0).2 = (ret tt, nb2)
       /\ hidden_layers (model nb2) = hidden_layers (model notebook_0)
       /\ output (model nb2) = output (model notebook_0).
Proof.
  assert (Harch : has_architecture 784 10 [3] (model notebook_0))
    by (repeat split; reflexivity).
  split; [exact Harch|].
  destruct (proj2 (@checkpoint_round_trip nat _) notebook_0 [3] Harch)
    as (nb2 & Hcell & _ & _ & _ & _ & Hh & Ho).
  by exists nb2.
Defined.

(** C4, as stated, fails: no field of the checkpoint of the notebook's
    model holds the model's dropout probability. *)
Lemma checkpoint_has_no_dropout_field :
  ~ exists key : string,
      checkpoint_of (model notebook_0) !! key
      = Some (py_float (dropout (model notebook_0))).
Proof. intros [key Hkey]. by eapply checkpoint_of_no_float. Qed.

(** Cell [19] of the notebook: the state dict of a network with hidden
    sizes 512, 256 and 128 does not load into one with hidden sizes 400, 200
    and 100; the report names the first weight and its two shapes. *)
Lemma notebook_size_mismatch {G : Type} `{Generator G} (w1 w2 : world G) :
  exists (trained model : network) (msgs : list load_error),
    (Network 784 10 [512; 256; 128] w1).1 = ret trained
    /\ (Network 784 10 [400; 200; 100] w2).1 = ret model
    /\ (load_state_dict model (network_state_dict trained)).2
       = raise (RuntimeError_loading_state_dict msgs)
    /\ In (size_mismatch "hidden_layers.0.weight" [512; 784] [400; 784])
          msgs.
Proof.
  destruct (Network_returns 784 10 [512; 256; 128] w1)
    as (trained & g1 & Ht & Harch1 & _).
  destruct (Network_returns 784 10 [400; 200; 100] w2)
    as (model & g2 & Hm & Harch2 & _).
  destruct (first_weight_shape _ _ _ _ _ Harch1) as (t & Ht' & Hst).
  destruct (first_weight_shape _ _ _ _ _ Harch2) as (p & Hp & Hsp).
  assert (Hne : shape t <> shape p) by (rewrite Hst, Hsp; discriminate).
  destruct (load_state_dict_reports (network_state_dict trained)
              "hidden_layers.0.weight" t p Ht' Hne model Hp)
    as (msgs & Hr & Hin).
  exists trained, model, msgs. rewrite Ht, Hm, Hst, Hsp in *. done.
Qed.

Lemma size_mismatch_raises_and_propagates_witness :
  exists (msgs : list load_error) (w' : world nat),
    In (size_mismatch "hidden_layers.0.weight" [5; 3] [4; 3]) msgs
    /\ load_checkpoint "checkpoint.pth" world_1
       = (raise (RuntimeError_loading_state_dict msgs), w').
Proof.
  destruct (@size_mismatch_raises_and_propagates nat _) as [Hraise Hprop].
  destruct (Hprop world_1 "checkpoint.pth" 3 2 [4] saved_elsewhere)
    as (m & w' & Hm & _ & Hload); [by vm_compute|].
  destruct (Network_returns 3 2 [4] world_1) as (m' & g & Hm' & Harch & _).
  rewrite Hm' in Hm. injection Hm as <- <-.
  destruct (first_weight_shape _ _ _ _ _ Harch) as (p & Hp & Hshape).
  destruct (Hraise m' saved_elsewhere "hidden_layers.0.weight"
              (zeros [5; 3]) p) as (msgs & Hin & Hr).
  - by vm_compute.
  - exact Hp.
  - rewrite Hshape. cbn [shape zeros]. discriminate.
  - exists msgs, (mk_world (files world_1) g). split.
    + rewrite Hshape in Hin. exact Hin.
    + by apply Hload.
Defined.

End Part6Facts.

(** ** Part 1: the activation and the network with one hidden layer *)

Module Part1LayersFacts.
Import Torch Part1 Part1Layers TorchFacts.
Open Scope result_scope.

Lemma activation_data (x : tensor) :
  activation x = mk_tensor (shape x) (map sigmoid (data x)).
Proof.
  unfold activation, number_div, number_add, torch_exp, neg, map_tensor.
  cbn [shape data]. by rewrite !map_map.
Qed.

Lemma sigmoid_range (v : R) : (0 < sigmoid v < 1)%R.
Proof.
  unfold sigmoid. pose proof (exp_pos (- v)) as Hexp.
  assert (Hden : (1 < 1 + exp (- v))%R) by lra.
  split.
  - apply Rdiv_lt_0_compat; lra.
  - apply (Rmult_lt_reg_r (1 + exp (- v))); [lra|].
    unfold Rdiv. rewrite Rmult_assoc, Rinv_l by lra. lra.
Qed.


Lemma sigmoid_complement (v : R) : sigmoid (- v) = (1 - sigmoid v)%R.
Proof.
  unfold sigmoid. rewrite Ropp_involutive, exp_Ropp.
  pose proof (exp_pos v) as Hexp. field. split; lra.
Qed.


Lemma sigmoid_increasing (u v : R) : (u <= v)%R -> (sigmoid u <= sigmoid v)%R.
Proof.
  intros Huv. unfold sigmoid.
  pose proof (exp_pos (- u)) as Hu. pose proof (exp_pos (- v)) as Hv.
  assert (Hexp : (exp (- v) <= exp (- u))%R).
  { destruct (Req_dec u v) as [->|Hne]; [lra|].
    left. apply exp_increasing. lra. }
  unfold Rdiv. rewrite !Rmult_1_l. apply Rinv_le_contravar; lra.
Qed.

(** X3: [activation] is monotone: when every entry of [x] is at most the
    entry of [y] in its place, so it is of their activations. *)
Theorem activation_monotone (x y : tensor) :
  Forall2 Rle (data x) (data y) ->
  Forall2 Rle (data (activation x)) (data (activation y)).
Proof.
  intros Hxy. rewrite !activation_data. cbn [data].
  induction Hxy as [|u v us vs Huv _ IH]; [constructor|].
  cbn [map]. constructor; [by apply sigmoid_increasing|exact IH].
Qed.

Lemma activation_monotone_witness :
  let x := mk_tensor [1; 2]%nat [0; 1]%R in
  let y := mk_tensor [1; 2]%nat [1; 1]%R in
  Forall2 Rle (data x) (data y)
  /\ Forall2 Rle (data (activation x)) (data (activation y)).
Proof.
  assert (H : Forall2 Rle [0; 1]%R [1; 1]%R) by (repeat constructor; lra).
  split; [exact H|].
  by apply (activation_monotone (mk_tensor _ _) (mk_tensor _ _)).
Defined.

Lemma numel_app (s1 s2 : list nat) :
  numel (s1 ++ s2) = (numel s1 * numel s2)%nat.
Proof.
  unfold numel. induction s1 as [|d s1 IH]; cbn [app fold_right]; [lia|].
  rewrite IH. lia.
Qed.

Lemma broadcast_row (N h : nat) : broadcast_shapes [N; h] [1; h] = Some [N; h].
Proof.
  unfold broadcast_shapes. cbn [rev app broadcast_reversed].
  destruct (Nat.eqb N 1); rewrite (Nat.eqb_refl h); reflexivity.
Qed.

Lemma numel_rev (s : list nat) : numel (rev s) = numel s.
Proof.
  induction s as [|d s IH]; [done|]. cbn [rev]. rewrite numel_app, IH.
  unfold numel. cbn [fold_right]. lia.
Qed.

(** X4: [t.reshape(tuple(reversed(t.shape)))] never raises: it returns the
    entries of [t] under the reversed shape, and reshaping the result in the
    same way gives [t] back. *)
Theorem reshape_reversed_round_trip (t : tensor) :
  exists column,
    reshape t (rev (shape t)) = ret column
    /\ shape column = rev (shape t) /\ data column = data t
    /\ reshape column (rev (shape column)) = ret t.
Proof.
  exists (mk_tensor (rev (shape t)) (data t)).
  rewrite reshape_same_size by apply numel_rev.
  repeat split. rewrite reshape_same_size by apply numel_rev.
  cbn [shape data]. rewrite rev_involutive. by destruct t.
Qed.

Lemma zip_with_R_app f (xs1 xs2 ys1 ys2 : list R) :
  length xs1 = length ys1 ->
  zip_with_R f (xs1 ++ xs2) (ys1 ++ ys2)
  = zip_with_R f xs1 ys1 ++ zip_with_R f xs2 ys2.
Proof.
  revert ys1. induction xs1 as [|x xs1 IH]; intros [|y ys1] Hlen; try done.
  cbn in *. f_equal. apply IH. lia.
Qed.

Lemma zip_with_R_map_seq f (g : nat -> R) (bs : list R) (h : nat) :
  length bs = h ->
  zip_with_R f (map g (seq 0 h)) bs
  = map (fun j => f (g j) (nth j bs 0%R)) (seq 0 h).
Proof.
  revert g h. induction bs as [|b bs IH]; intros g h <-; [done|].
  cbn [length seq map zip_with_R nth]. f_equal.
  rewrite <- seq_shift, !map_map. by apply IH.
Qed.

Lemma zip_with_R_rows f (g : nat -> nat -> R) (bs : list R) (h : nat)
  (rows : list nat) :
  length bs = h ->
  zip_with_R f (flat_map (fun i => map (g i) (seq 0 h)) rows)
               (flat_map (fun _ => bs) rows)
  = flat_map (fun i => map (fun j => f (g i j) (nth j bs 0%R)) (seq 0 h)) rows.
Proof.
  intros Hb. induction rows as [|i rows IH]; [done|]. cbn [flat_map].
  rewrite zip_with_R_app by (by rewrite length_map, length_seq).
  by rewrite IH, zip_with_R_map_seq.
Qed.

Lemma expand_row (N h : nat) (bs : list R) :
  length bs = h ->
  expand_to [N; h] [1; h] bs = flat_map (fun _ => bs) (seq 0 N).
Proof.
  intros Hb. unfold expand_to. cbn [length Nat.sub repeat app expand_entries].
  assert (Hsame : expand_entries [h] [h] bs = bs).
  { apply expand_entries_same. rewrite Hb. unfold numel. cbn [fold_right]. lia. }
  destruct (Nat.eqb_spec 1 N) as [<-|_].
  - cbn [seq flat_map]. rewrite !app_nil_r. change (0 * numel [h])%nat with 0%nat.
    change (skipn 0 bs) with bs.
    rewrite firstn_all2; [done|]. rewrite Hb. unfold numel. cbn [fold_right]. lia.
  - apply flat_map_ext. intros _. exact Hsame.
Qed.

Lemma rows_length (g : nat -> nat -> R) (N h : nat) :
  length (flat_map (fun i => map (g i) (seq 0 h)) (seq 0 N)) = numel [N; h].
Proof.
  rewrite flat_map_constant_length with (c := h).
  - rewrite length_seq. unfold numel. cbn. lia.
  - intros i _. by rewrite length_map, length_seq.
Qed.

(** A bias row added to the rows of a matrix. *)
Lemma add_row_entries (g : nat -> nat -> R) (N h : nat) (b : tensor) :
  shape b = [1; h] -> wf b ->
  add (mk_tensor [N; h] (flat_map (fun i => map (g i) (seq 0 h)) (seq 0 N))) b
  = ret (mk_tensor [N; h]
           (flat_map (fun i => map (fun j => (g i j + nth j (data b) 0)%R)
                                   (seq 0 h)) (seq 0 N))).
Proof.
  destruct b as [sb bs]. unfold wf. cbn [shape data]. intros -> Hb.
  rewrite numel_row in Hb.
  unfold add, pointwise. cbn [shape data]. rewrite broadcast_row.
  rewrite expand_to_same by apply rows_length.
  by rewrite expand_row, zip_with_R_rows.
Qed.

Lemma map_flat_map_rows (f : R -> R) (g : nat -> nat -> R) (h : nat)
  (rows : list nat) :
  map f (flat_map (fun i => map (g i) (seq 0 h)) rows)
  = flat_map (fun i => map (fun j => f (g i j)) (seq 0 h)) rows.
Proof.
  rewrite !flat_map_concat_map, concat_map, map_map. f_equal.
  apply map_ext. intros i. by rewrite map_map.
Qed.

Lemma torch_mm_rows (x W : tensor) (N k h : nat) :
  shape x = [N; k] -> shape W = [k; h] ->
  torch_mm x W
  = ret (mk_tensor [N; h]
           (flat_map (fun i => map (dot x W k h i) (seq 0 h)) (seq 0 N))).
Proof. intros Hx HW. unfold torch_mm. by rewrite Hx, HW, Nat.eqb_refl. Qed.

Lemma activation_rows (g : nat -> nat -> R) (N h : nat) :
  activation
    (mk_tensor [N; h] (flat_map (fun i => map (g i) (seq 0 h)) (seq 0 N)))
  = mk_tensor [N; h]
      (flat_map (fun i => map (fun j => sigmoid (g i j)) (seq 0 h)) (seq 0 N)).
Proof.
  rewrite activation_data. cbn [shape data]. f_equal. apply map_flat_map_rows.
Qed.

Lemma layer_output_wf (x W B : tensor) (N k h : nat) :
  shape (layer_output x W B N k h) = [N; h]
  /\ wf (layer_output x W B N k h)
  /\ in_unit_interval (layer_output x W B N k h).
Proof.
  split; [done|]. split; [apply rows_length|].
  unfold in_unit_interval, layer_output. cbn [data].
  apply List.Forall_forall. intros v Hv. apply in_flat_map in Hv as (i & _ & Hv).
  apply in_map_iff in Hv as (j & <- & _). apply sigmoid_range.
Qed.

Lemma multilayer_output_returns (features W1 W2 B1 B2 : tensor)
  (N n_input n_hidden n_output : nat) :
  shape features = [N; n_input] ->
  shape W1 = [n_input; n_hidden] -> shape W2 = [n_hidden; n_output] ->
  shape B1 = [1; n_hidden] -> wf B1 ->
  shape B2 = [1; n_output] -> wf B2 ->
  let hidden_layer := layer_output features W1 B1 N n_input n_hidden in
  multilayer_output features W1 W2 B1 B2
  = ret (hidden_layer, layer_output hidden_layer W2 B2 N n_hidden n_output).
Proof.
  intros Hf HW1 HW2 HB1 HwB1 HB2 HwB2 hidden_layer. unfold multilayer_output.
  rewrite (torch_mm_rows features W1 N n_input n_hidden), bind_ret by done.
  rewrite add_row_entries, bind_ret, activation_rows by done.
  rewrite (torch_mm_rows _ W2 N n_hidden n_output), bind_ret by done.
  rewrite add_row_entries, bind_ret, activation_rows by done.
  reflexivity.
Qed.



Lemma torch_randn_entries {G : Type} `{Generator G} (s : list nat) (g : G) :
  exists xs g', torch_randn s g = (mk_tensor s xs, g') /\ length xs = numel s.
Proof.
  unfold torch_randn. pose proof (draws_length normal (numel s) g) as Hlen.
  destruct (draws normal (numel s) g) as [xs g']. by exists xs, g'.
Qed.





Lemma flat_map_singleton {A B} (f : A -> B) (l : list A) :
  flat_map (fun x => [f x]) l = map f l.
Proof. induction l as [|x l IH]; [done|]. cbn. by rewrite IH. Qed.



End Part1LayersFacts.

(** ** Part 3: gradients of any shape, and what the training loop computes *)

Module Part3PassesFacts.
Import Torch Part3 Part3Passes TorchFacts Part3Facts.
Open Scope result_scope.

Lemma x_grad_entry (n a : R) : (1 / n * (INR 2 * a ^ (2 - 1)) = 2 * a / n)%R.
Proof. simpl. unfold Rdiv. ring. Qed.

(** The gradient that reaches [x] from [z = (x**2).mean()]. *)
Lemma backprop_mean_of_squares (s : list nat) (xs : list R) :
  length xs = numel s ->
  backprop (z_of (mk_tensor s xs)) (mk_tensor [] [1%R])
  = ret (mk_tensor s (map (fun a => (2 * a / INR (numel s))%R) xs)).
Proof.
  intros Hlen. unfold z_of, y_of.
  cbn [backprop value map_tensor shape data].
  unfold expand, div_number, map_tensor. cbn [shape data map].
  rewrite bool_decide_eq_true_2 by apply broadcast_shapes_scalar_l.
  rewrite bind_ret, expand_to_scalar. unfold mul.
  rewrite pointwise_same_shape
    by (by rewrite ?repeat_length, ?length_map).
  rewrite bind_ret. do 2 f_equal.
  rewrite <- Hlen, <- (length_map (fun a => (INR 2 * a ^ (2 - 1))%R) xs).
  rewrite zip_with_R_repeat_l, length_map, map_map.
  apply map_ext. intros a. apply x_grad_entry.
Qed.



Lemma sum_list_app (xs ys : list R) :
  sum_list (xs ++ ys) = (sum_list xs + sum_list ys)%R.
Proof.
  unfold sum_list. induction xs as [|x xs IH]; cbn [app fold_right]; [lra|].
  rewrite IH. lra.
Qed.

Lemma mean_of_squares_derivative_at (k n x : R) :
  derivable_pt_lim (fun t => (t ^ 2 + k) / n)%R x (2 * x / n)%R.
Proof.
  apply (derivable_pt_lim_ext
           (mult_real_fct (/ n)%R (fun t => t ^ 2)%R + fct_cte (k / n)%R)%F).
  { intros t. unfold plus_fct, mult_real_fct, fct_cte, Rdiv. ring. }
  replace (2 * x / n)%R with (/ n * (INR 2 * x ^ Init.Nat.pred 2) + 0)%R
    by (simpl; unfold Rdiv; ring).
  apply derivable_pt_lim_plus; [|apply derivable_pt_lim_const].
  apply derivable_pt_lim_scal, derivable_pt_lim_pow.
Qed.

Lemma z_at_value (s : list nat) (before after : list R) (t : R) :
  z_at s before after t
  = ((t ^ 2 + (sum_list (map (fun a => a ^ 2) before)
               + sum_list (map (fun a => a ^ 2) after))) / INR (numel s))%R.
Proof.
  unfold z_at, z_of, y_of. cbn [value mean_of scalar data hd map_tensor shape].
  rewrite map_app, sum_list_app. cbn [map]. unfold sum_list at 2.
  cbn [fold_right]. fold (sum_list (map (fun a => a ^ 2) after))%R.
  unfold Rdiv. ring.
Qed.



Lemma view_rows_flattened (images im : tensor) (n : nat) :
  shape_0 images = ret n -> view_rows images n = ret im ->
  im = flattened images.
Proof.
  unfold shape_0, view_rows, flattened.
  destruct (shape images) as [|d s]; [done|]. intros [= <-].
  destruct (_ || _); [done|]. by intros [= <-].
Qed.

Section PassFacts.
Context {S : Type} `{Training S}.

(** One pass, outcome by outcome. *)
Lemma training_pass_run (b : batch) (running_loss : R) (w : session S) :
  let s1 := optimizer_zero_grad (net w) in
  training_pass b running_loss w
  = match shape_0 b.1 with
    | inl e => (inl e, w)
    | inr n =>
        match view_rows b.1 n with
        | inl e => (inl e, mk_session (net w) (log w ++ [call_view]))
        | inr images =>
            match NLLLoss (model_forward s1 images) b.2 with
            | inl e =>
                (inl e,
                 mk_session s1
                   (log w ++ [call_view; call_zero_grad; call_forward;
                              call_criterion]))
            | inr loss =>
                (ret (running_loss + hd 0 (data loss))%R,
                 mk_session (optimizer_step (loss_backward s1 images b.2))
                            (log w ++ calls_of_pass))
            end
        end
    end.
Proof.
  destruct b as [images labels], w as [s l]. cbn [fst snd net log].
  unfold training_pass, mbind, lift.
  destruct (shape_0 images) as [e|n]; [done|].
  unfold calling at 1. cbn [net log].
  destruct (view_rows images n) as [e|im]; [done|].
  unfold calling at 1. cbn [net log ret]. unfold calling at 1. cbn [net log ret].
  unfold calling at 1. cbn [net log unchanged].
  destruct (NLLLoss _ labels) as [e|loss] eqn:Hloss.
  { by rewrite <- !app_assoc. }
  apply NLLLoss_scalar in Hloss as [Hshape [v Hdata]].
  unfold calling, item, mret. rewrite Hshape, Hdata. cbn.
  by rewrite <- !app_assoc.
Qed.

Lemma training_pass_result (b : batch) (running_loss : R) (w : session S) :
  (training_pass b running_loss w).1
  = (let* l := pass_loss (net w) b in ret (running_loss + l)%R).
Proof.
  rewrite training_pass_run. unfold pass_loss.
  destruct (shape_0 b.1) as [e|n]; [done|]. rewrite bind_ret.
  destruct (view_rows b.1 n) as [e|im]; [done|]. rewrite bind_ret.
  destruct (NLLLoss _ b.2) as [e|loss] eqn:Hloss; [done|].
  apply NLLLoss_scalar in Hloss as [Hshape [v Hdata]].
  rewrite bind_ret. unfold item. by rewrite Hdata.
Qed.

Lemma training_pass_net (b : batch) (running_loss l : R) (w : session S) :
  (training_pass b running_loss w).1 = ret l ->
  net (training_pass b running_loss w).2 = update (net w) b.
Proof.
  rewrite training_pass_run. unfold update.
  destruct (shape_0 b.1) as [e|n] eqn:Hn; [done|].
  destruct (view_rows b.1 n) as [e|im] eqn:Him; [done|].
  destruct (NLLLoss _ b.2) as [e|loss]; [done|]. intros _. cbn [snd net].
  by rewrite (view_rows_flattened _ _ _ Hn Him).
Qed.

Lemma for_batches_net (batches : list batch) :
  forall (running_loss l : R) (w : session S),
    (for_batches batches running_loss w).1 = ret l ->
    net (for_batches batches running_loss w).2
    = fold_left update batches (net w).
Proof.
  induction batches as [|b rest IH]; intros running_loss l w; [done|].
  cbn [for_batches fold_left]. unfold mbind.
  pose proof (fun l => training_pass_net b running_loss l w) as Hb.
  destruct (training_pass b running_loss w) as [[e|l1] w1]; [done|].
  intros Hrest. rewrite (IH _ _ _ Hrest). f_equal. by eapply Hb.
Qed.

Lemma epoch_net (batches : list batch) (w : session S) :
  (epoch batches w).1 = ret tt ->
  net (epoch batches w).2 = fold_left update batches (net w).
Proof.
  unfold epoch, mbind.
  pose proof (fun l => for_batches_net batches 0%R l w) as Hb.
  destruct (for_batches batches 0%R w) as [[e|l] w1]; [done|].
  unfold lift. destruct (Nat.eqb _ _); [done|]. intros _. cbn.
  by eapply Hb.
Qed.

Lemma for_epochs_net (trainloader : nat -> list batch) (es : list nat) :
  forall w : session S,
    (for_epochs trainloader es w).1 = ret tt ->
    net (for_epochs trainloader es w).2 = trained trainloader es (net w).
Proof.
  unfold trained. induction es as [|e rest IH]; intros w; [done|].
  cbn [for_epochs fold_left]. unfold mbind.
  pose proof (epoch_net (trainloader e) w) as He.
  destruct (epoch (trainloader e) w) as [[err|[]] w1]; [done|].
  intros Hrest. rewrite (IH _ Hrest). f_equal. by apply He.
Qed.

End PassFacts.


(** X11: when the training loop returns, the network is the one that the
    five epochs leave: in each epoch, batch after batch, [zero_grad],
    [backward] and [step]; and the loader had at least one batch in every
    epoch. *)
Theorem training_loop_trains {S : Type} `{Training S}
  (trainloader : nat -> list batch) (w : session S) :
  (training_loop trainloader w).1 = ret tt ->
  net (training_loop trainloader w).2
  = trained trainloader (seq 0 epochs) (net w)
  /\ Forall (fun e => trainloader e <> []) (seq 0 epochs).
Proof.
  unfold training_loop. intros Hr. split; [by apply for_epochs_net|].
  revert w Hr. generalize (seq 0 epochs) as es.
  induction es as [|e rest IH]; intros w; [constructor|].
  cbn [for_epochs]. unfold mbind.
  destruct (epoch (trainloader e) w) as [[err|[]] w1] eqn:He; [done|].
  intros Hrest. constructor; [|by eapply IH].
  intros Hnil. rewrite Hnil in He. by vm_compute in He.
Qed.

Lemma training_loop_trains_witness :
  let loader := fun _ : nat => [two_images; two_images] in
  let w := mk_session 0%nat [] in
  (training_loop loader w).1 = ret tt
  /\ net (training_loop loader w).2 = trained loader (seq 0 epochs) 0%nat.
Proof.
  intros loader w.
  assert (Hr : (training_loop loader w).1 = ret tt) by (vm_compute; reflexivity).
  split; [exact Hr|]. exact (proj1 (training_loop_trains loader w Hr)).
Defined.

(** X12: with a loader that yields no batch in the first epoch the loop
    raises [ZeroDivisionError] at [running_loss/len(trainloader)], before
    any call on the network: network and log are unchanged. *)
Theorem training_loop_empty_loader {S : Type} `{Training S}
  (trainloader : nat -> list batch) (w : session S) :
  trainloader 0%nat = [] ->
  training_loop trainloader w = (raise ZeroDivisionError, w).
Proof.
  intros Hnil. unfold training_loop, epochs. cbn [seq for_epochs].
  unfold mbind at 1. rewrite Hnil. by destruct w.
Qed.

Lemma training_loop_empty_loader_witness :
  training_loop (fun _ => []) (mk_session 0%nat [])
  = (raise ZeroDivisionError, mk_session 0%nat []).
Proof. by apply (training_loop_empty_loader (fun _ => [])). Defined.




End Part3PassesFacts.

(** ** Part 3: the inline networks compute log-probabilities *)

Module ForwardFacts.
Import Torch Part3 Forward TorchFacts Part1LayersFacts.
Open Scope result_scope.

Lemma broadcast_bias (N o : nat) : broadcast_shapes [N; o] [o] = Some [N; o].
Proof.
  unfold broadcast_shapes. cbn [rev app broadcast_reversed].
  by rewrite Nat.eqb_refl.
Qed.

Lemma F_linear_matrix (input : tensor) (l : Part6.Linear) (N i o : nat) :
  shape input = [N; i] -> Part6.is_Linear i o l ->
  exists output, F_linear input l = ret output /\ shape output = [N; o].
Proof.
  intros Hin (_ & _ & Hw & Hb). unfold F_linear. rewrite Hin, Hw.
  cbn [rev app]. rewrite Nat.eqb_refl. unfold add, pointwise.
  cbn [shape]. rewrite Hb, broadcast_bias. by eexists.
Qed.

Lemma F_linear_width (input : tensor) (l : Part6.Linear) (N k i o : nat) :
  shape input = [N; k] -> Part6.is_Linear i o l -> k <> i ->
  F_linear input l = raise (RuntimeError_size_mismatch [N; k] [o; i]).
Proof.
  intros Hin (_ & _ & Hw & _) Hne. unfold F_linear. rewrite Hin, Hw.
  cbn [rev app]. by apply Nat.eqb_neq in Hne as ->.
Qed.

(** On a matrix, along its rows. *)
Lemma F_log_softmax_rows (input : tensor) (N c : nat) :
  shape input = [N; c] ->
  F_log_softmax input 1
  = inr (mk_tensor [N; c]
           (flat_map
              (fun a =>
                 map (fun j =>
                        (entry input c a j
                         - ln (sum_list (map exp (row input c a))))%R)
                     (seq 0 c))
              (seq 0 N))).
Proof.
  intros Hin. unfold F_log_softmax. rewrite Hin.
  change (length [N; c]) with 2%nat.
  change (Z.of_nat (Nat.max 2 1)) with 2%Z.
  change ((- 2 <=? 1)%Z && (1 <? 2)%Z) with true.
  change (Z.to_nat (if (1 <? 0)%Z then (1 + 2)%Z else 1%Z)) with 1%nat.
  cbn [firstn skipn nth].
  change (numel [N]) with (N * 1)%nat. change (numel []) with 1%nat.
  rewrite Nat.mul_1_r. do 2 f_equal.
  apply flat_map_ext. intros a. cbn [seq map].
  rewrite flat_map_singleton. apply map_ext. intros j.
  unfold entry, row. rewrite map_map. rewrite !Nat.mul_1_r, !Nat.add_0_r.
  do 3 f_equal. apply map_ext. intros j'. unfold entry.
  by rewrite Nat.mul_1_r, Nat.add_0_r.
Qed.

Lemma nth_rows {A} (g : nat -> nat -> A) (c : nat) (d : A) (rows : list nat) :
  forall a j r0, (a < length rows)%nat -> (j < c)%nat ->
    nth (a * c + j) (flat_map (fun r => map (g r) (seq 0 c)) rows) d
    = g (nth a rows r0) j.
Proof.
  induction rows as [|r rows IH]; intros a j r0 Ha Hj; cbn [length] in Ha;
    [lia|].
  cbn [flat_map]. destruct a as [|a].
  - rewrite app_nth1 by (rewrite length_map, length_seq; lia).
    cbn [Nat.mul Nat.add nth].
    rewrite (nth_indep _ d (g r 0%nat)) by (rewrite length_map, length_seq; lia).
    by rewrite map_nth, seq_nth.
  - rewrite app_nth2 by (rewrite length_map, length_seq; lia).
    rewrite length_map, length_seq. cbn [nth].
    replace (S a * c + j - c)%nat with (a * c + j)%nat by lia.
    apply IH; lia.
Qed.

Lemma entry_rows (g : nat -> nat -> R) (N c a j : nat) :
  (a < N)%nat -> (j < c)%nat ->
  entry (mk_tensor [N; c] (flat_map (fun r => map (g r) (seq 0 c)) (seq 0 N)))
        c a j = g a j.
Proof.
  intros Ha Hj. unfold entry. cbn [data].
  rewrite (nth_rows g c 0%R (seq 0 N) a j 0%nat) by (by rewrite ?length_seq).
  by rewrite seq_nth.
Qed.

Lemma sum_list_exp_pos (xs : list R) :
  xs <> [] -> (0 < sum_list (map exp xs))%R.
Proof.
  destruct xs as [|x xs]; [done|]. intros _. cbn [map sum_list fold_right].
  assert (Hrest : (0 <= fold_right Rplus 0 (map exp xs))%R).
  { induction xs as [|y ys IH]; cbn [map fold_right]; [lra|].
    pose proof (exp_pos y). lra. }
  pose proof (exp_pos x). lra.
Qed.

Lemma sum_list_scaled (f : nat -> R) (k : R) (js : list nat) :
  sum_list (map (fun j => (f j * k)%R) js)
  = (sum_list (map f js) * k)%R.
Proof.
  unfold sum_list. induction js as [|j js IH]; cbn [map fold_right]; [lra|].
  rewrite IH. lra.
Qed.

Lemma exp_minus_ln (v s : R) : (0 < s)%R -> exp (v - ln s) = (exp v * / s)%R.
Proof.
  intros Hs. unfold Rminus. by rewrite exp_plus, exp_Ropp, exp_ln.
Qed.

(** The exponentials of a row of log-softmax values add up to one. *)
Lemma softmax_row_sums_to_one (f : nat -> R) (c : nat) :
  (0 < c)%nat ->
  let s := sum_list (map (fun j => exp (f j)) (seq 0 c)) in
  sum_list (map (fun j => exp (f j - ln s)) (seq 0 c)) = 1%R.
Proof.
  intros Hc s.
  assert (Hs : (0 < s)%R).
  { subst s. rewrite <- (map_map f exp). apply sum_list_exp_pos.
    destruct c; [lia|done]. }
  rewrite (map_ext _ (fun j => (exp (f j) * / s)%R))
    by (intros j; by apply exp_minus_ln).
  rewrite sum_list_scaled. fold s. by apply Rinv_r, Rgt_not_eq.
Qed.

Lemma sum_list_member (xs : list R) (x : R) :
  Forall (fun v => (0 <= v)%R) xs -> In x xs -> (x <= sum_list xs)%R.
Proof.
  unfold sum_list. induction 1 as [|y ys Hy Hys IH]; [done|].
  cbn [fold_right].
  assert (Hsum : (0 <= fold_right Rplus 0 ys)%R).
  { clear IH. induction Hys; cbn [fold_right]; lra. }
  intros [->|Hin]; [lra|]. specialize (IH Hin). lra.
Qed.

Lemma F_log_softmax_log_probabilities (input : tensor) (N c : nat) :
  shape input = [N; c] -> (0 < c)%nat ->
  exists logps,
    F_log_softmax input 1 = inr logps /\ log_probabilities logps N c.
Proof.
  intros Hin Hc. rewrite (F_log_softmax_rows input N c Hin).
  eexists. split; [reflexivity|]. split; [done|]. split.
  { unfold wf. cbn [shape data].
    rewrite flat_map_constant_length with (c := c).
    - rewrite length_seq. unfold numel. cbn [fold_right]. lia.
    - intros a _. by rewrite length_map, length_seq. }
  intros a Ha.
  set (s := sum_list (map exp (row input c a))).
  assert (Hrow : row (mk_tensor [N; c]
                    (flat_map
                       (fun a => map (fun j =>
                          (entry input c a j
                           - ln (sum_list (map exp (row input c a))))%R)
                          (seq 0 c)) (seq 0 N))) c a
                 = map (fun j => (entry input c a j - ln s)%R) (seq 0 c)).
  { unfold row. apply map_ext_in. intros j Hj. apply in_seq in Hj.
    rewrite (entry_rows (fun a j => (entry input c a j
               - ln (sum_list (map exp (row input c a))))%R)) by lia.
    done. }
  rewrite Hrow, map_map.
  assert (Hone : sum_list (map (fun j => exp (entry input c a j - ln s))
                              (seq 0 c)) = 1%R).
  { subst s. unfold row. rewrite map_map.
    by apply (softmax_row_sums_to_one (entry input c a) c). }
  split; [exact Hone|].
  apply List.Forall_forall. intros v Hv. apply in_map_iff in Hv as (j & <- & Hj).
  assert (Hle : (exp (entry input c a j - ln s) <= 1)%R).
  { rewrite <- Hone.
    apply sum_list_member.
    - apply List.Forall_forall. intros u Hu.
      apply in_map_iff in Hu as (j' & <- & _). left. apply exp_pos.
    - apply in_map_iff. by exists j. }
  destruct (Rle_or_lt (entry input c a j - ln s) 0) as [|Hpos]; [done|].
  apply exp_increasing in Hpos. rewrite exp_0 in Hpos. lra.
Qed.

Lemma forward_app (ms1 ms2 : list module) :
  forall input,
    forward (ms1 ++ ms2) input
    = (let+ output := forward ms1 input in forward ms2 output).
Proof.
  induction ms1 as [|m ms1 IH]; intros input; [done|].
  destruct m as [l| |dim]; cbn [app forward].
  - destruct (F_linear input l) as [e|y]; [done|]. apply IH.
  - apply IH.
  - destruct (F_log_softmax input dim) as [e|y]; [done|]. apply IH.
Qed.

Lemma built_from_three_layers (rest : Sequential) (model : list module) :
  built_from ([Linear 784 128; ReLU; Linear 128 64; ReLU; Linear 64 10]
              ++ rest) model ->
  exists l1 l2 l3 tail,
    model = three_layers l1 l2 l3 ++ tail /\ built_from rest tail
    /\ Part6.is_Linear 784 128 l1 /\ Part6.is_Linear 128 64 l2
    /\ Part6.is_Linear 64 10 l3.
Proof.
  unfold built_from. cbn [app]. intros Hb.
  apply Forall2_cons_inv_l in Hb as (m1 & t1 & Hm1 & Hb & ->).
  apply Forall2_cons_inv_l in Hb as (m2 & t2 & Hm2 & Hb & ->).
  apply Forall2_cons_inv_l in Hb as (m3 & t3 & Hm3 & Hb & ->).
  apply Forall2_cons_inv_l in Hb as (m4 & t4 & Hm4 & Hb & ->).
  apply Forall2_cons_inv_l in Hb as (m5 & tail & Hm5 & Hb & ->).
  destruct m1 as [l1| |]; [|done..]. destruct m2 as [| |]; [done| |done].
  destruct m3 as [l2| |]; [|done..]. destruct m4 as [| |]; [done| |done].
  destruct m5 as [l3| |]; [|done..].
  by exists l1, l2, l3, tail.
Qed.

Lemma forward_three_layers (l1 l2 l3 : Part6.Linear) (images : tensor)
  (N : nat) :
  Part6.is_Linear 784 128 l1 -> Part6.is_Linear 128 64 l2 ->
  Part6.is_Linear 64 10 l3 -> shape images = [N; 784]%nat ->
  exists logits,
    forward (three_layers l1 l2 l3) images = inr logits
    /\ shape logits = [N; 10]%nat.
Proof.
  intros H1 H2 H3 Hin. unfold three_layers. cbn [forward].
  destruct (F_linear_matrix images l1 N _ _ Hin H1) as (h1 & -> & Hs1).
  cbn [framework obind ret forward].
  destruct (F_linear_matrix (F_relu h1) l2 N _ _ Hs1 H2) as (h2 & -> & Hs2).
  cbn [framework obind ret forward].
  destruct (F_linear_matrix (F_relu h2) l3 N _ _ Hs2 H3) as (h3 & -> & Hs3).
  cbn [framework obind ret forward]. by exists h3.
Qed.

Lemma forward_three_layers_width (l1 l2 l3 : Part6.Linear) (images : tensor)
  (k : nat) (leading : list nat) :
  Part6.is_Linear 784 128 l1 -> shape images = leading ++ [k] ->
  k <> 784%nat ->
  forall tail,
    forward (three_layers l1 l2 l3 ++ tail) images
    = inl (raised (RuntimeError_size_mismatch (shape images) [128; 784]%nat)).
Proof.
  intros (_ & _ & Hw & _) Hin Hne tail. unfold three_layers.
  cbn [app forward]. unfold F_linear. rewrite Hw, Hin, rev_app_distr.
  cbn [rev app]. by apply Nat.eqb_neq in Hne as ->.
Qed.

Lemma built_from_log_softmax (model : list module) :
  built_from [LogSoftmax 1] model -> model = [LogSoftmax_module 1].
Proof.
  unfold built_from. intros Hb.
  apply Forall2_cons_inv_l in Hb as (m & ? & Hm & Hb & ->).
  apply Forall2_nil_inv_l in Hb as ->. destruct m as [| |dim]; try done.
  cbn in Hm. by subst dim.
Qed.

Lemma forward_log_softmax_model (layers : Sequential) (model : list module)
  (images : tensor) (N : nat) :
  layers = [Linear 784 128; ReLU; Linear 128 64; ReLU; Linear 64 10;
            LogSoftmax 1] ->
  built_from layers model -> shape images = [N; 784]%nat ->
  exists logps,
    forward model images = inr logps /\ log_probabilities logps N 10.
Proof.
  intros -> Hb Hin.
  apply (built_from_three_layers [LogSoftmax 1]) in Hb
    as (l1 & l2 & l3 & tail & -> & Htail & H1 & H2 & H3).
  apply built_from_log_softmax in Htail as ->.
  destruct (forward_three_layers l1 l2 l3 images N H1 H2 H3 Hin)
    as (logits & Hlogits & Hshape).
  rewrite forward_app, Hlogits. cbn [obind forward].
  destruct (F_log_softmax_log_probabilities logits N 10 Hshape)
    as (logps & -> & Hlog); [lia|].
  by exists logps.
Qed.


Lemma zero_model_built : built_from model_cell_7 zero_model.
Proof. repeat constructor. Qed.


Lemma numel_image_batch (N : nat) : numel [N; 1; 28; 28]%nat = (784 * N)%nat.
Proof. unfold numel. cbn [fold_right]. lia. Qed.

Lemma view_rows_images (images : tensor) (N : nat) :
  shape images = [N; 1; 28; 28]%nat -> (0 < N)%nat ->
  view_rows images N = ret (mk_tensor [N; 784]%nat (data images)).
Proof.
  intros Hin HN. unfold view_rows. rewrite Hin, numel_image_batch.
  rewrite Nat.Div0.mod_mul, Nat.div_mul by lia.
  destruct N; [lia|done].
Qed.

Lemma sum_list_nonpositive (xs : list R) :
  Forall (fun v => (v <= 0)%R) xs -> (sum_list xs <= 0)%R.
Proof.
  unfold sum_list. induction 1 as [|x xs Hx _ IH]; cbn [fold_right]; lra.
Qed.

Lemma NLLLoss_of_log_probabilities (logps : tensor) (labels : list nat)
  (N c : nat) :
  log_probabilities logps N c -> (0 < N)%nat ->
  length labels = N -> Forall (fun t => (t < c)%nat) labels ->
  exists v, NLLLoss logps labels = ret (scalar v) /\ (0 <= v)%R.
Proof.
  intros (Hshape & _ & Hrows) HN Hlen Hlabels. unfold NLLLoss.
  rewrite Hshape, Hlen, Nat.eqb_refl. cbn [negb].
  assert (Hfind : find (fun t => Nat.leb c t) labels = None).
  { clear Hlen. induction Hlabels as [|t ts Ht _ IH]; [done|]. cbn [find].
    by apply Nat.leb_gt in Ht as ->. }
  rewrite Hfind. eexists. split; [reflexivity|].
  assert (Hsum : (sum_list (imap (fun i t => entry logps c i t) labels) <= 0)%R).
  { apply sum_list_nonpositive. apply List.Forall_forall. intros v Hv.
    apply list_elem_of_In, elem_of_lookup_imap in Hv as (i & t & -> & Hit).
    assert (Hi : (i < N)%nat) by (rewrite <- Hlen; by eapply lookup_lt_Some).
    destruct (Hrows i Hi) as [_ Hrow].
    rewrite List.Forall_forall in Hrow, Hlabels. apply Hrow.
    unfold row. apply in_map, in_seq.
    apply list_elem_of_lookup_2, list_elem_of_In, Hlabels in Hit. lia. }
  assert (HN' : (0 < INR N)%R) by (apply lt_0_INR; lia).
  unfold Rdiv. apply Rmult_le_pos; [lra|]. left. by apply Rinv_0_lt_compat.
Qed.



Lemma row_of_data (xs : list R) (s : list nat) (c : nat) :
  length xs = c -> row (mk_tensor s xs) c 0 = xs.
Proof.
  intros Hlen. unfold row, entry. cbn [data Nat.mul Nat.add].
  subst c. apply nth_ext with (d := 0%R) (d' := 0%R).
  - by rewrite length_map, length_seq.
  - intros n Hn. rewrite length_map, length_seq in Hn.
    rewrite (nth_indep _ 0%R (nth 0 xs 0%R))
      by (by rewrite length_map, length_seq).
    by rewrite (map_nth (fun j => nth j xs 0%R)), seq_nth.
Qed.



End ForwardFacts.

(** ** Part 6: loading state dicts and checkpoints, case by case *)

Module Part6LoadingFacts.
Import Torch Part6 Part6Loading TorchFacts Part6Facts.
Open Scope result_scope.

Lemma load_param_report (key : string) (param : tensor) (sd : state_dict) :
  (load_param key param sd).1.2 = mismatch_of sd (key, param)
  /\ (load_param key param sd).2 = missing_of sd (key, param).
Proof.
  unfold load_param, mismatch_of, missing_of. cbn [fst snd].
  destruct (get key sd) as [t|]; [|done]. by destruct (shape_eqb _ _).
Qed.

Lemma load_linear_report (prefix : string) (l : Linear) (sd : state_dict) :
  (load_linear prefix l sd).1.2
  = flat_map (mismatch_of sd) (linear_state prefix l)
  /\ (load_linear prefix l sd).2
     = flat_map (missing_of sd) (linear_state prefix l).
Proof.
  unfold load_linear, linear_state. cbn [flat_map]. rewrite !app_nil_r.
  destruct (load_param_report (prefix +:+ ".weight") (weight l) sd) as [H1 H2].
  destruct (load_param_report (prefix +:+ ".bias") (bias l) sd) as [H3 H4].
  destruct (load_param (prefix +:+ ".weight") _ _) as [[? ?] ?].
  destruct (load_param (prefix +:+ ".bias") _ _) as [[? ?] ?].
  cbn [fst snd] in *. by subst.
Qed.

Lemma load_hidden_report (sd : state_dict) (ls : list Linear) :
  forall k0,
    (load_hidden k0 ls sd).1.2 = flat_map (mismatch_of sd) (hidden_state k0 ls)
    /\ (load_hidden k0 ls sd).2
       = flat_map (missing_of sd) (hidden_state k0 ls).
Proof.
  induction ls as [|l ls IH]; intros k0; [done|].
  cbn [load_hidden hidden_state]. rewrite !flat_map_app.
  destruct (load_linear_report (hidden_prefix k0) l sd) as [H1 H2].
  destruct (IH (S k0)) as [H3 H4].
  destruct (load_linear (hidden_prefix k0) l sd) as [[? ?] ?].
  destruct (load_hidden (S k0) ls sd) as [[? ?] ?].
  cbn [fst snd] in *. by subst.
Qed.


Lemma load_param_loaded (key : string) (param : tensor) (sd : state_dict) :
  (key, (load_param key param sd).1.1) = loaded_param sd (key, param).
Proof.
  unfold load_param, loaded_param. cbn [fst snd].
  destruct (get key sd) as [t|]; [|done]. by destruct (shape_eqb _ _).
Qed.

Lemma load_linear_loaded (prefix : string) (l : Linear) (sd : state_dict) :
  linear_state prefix (load_linear prefix l sd).1.1
  = map (loaded_param sd) (linear_state prefix l).
Proof.
  unfold load_linear, linear_state. cbn [map].
  rewrite <- !load_param_loaded.
  destruct (load_param (prefix +:+ ".weight") _ _) as [[? ?] ?].
  by destruct (load_param (prefix +:+ ".bias") _ _) as [[? ?] ?].
Qed.

Lemma load_hidden_loaded (sd : state_dict) (ls : list Linear) :
  forall k0,
    hidden_state k0 (load_hidden k0 ls sd).1.1
    = map (loaded_param sd) (hidden_state k0 ls).
Proof.
  induction ls as [|l ls IH]; intros k0; [done|].
  cbn [load_hidden hidden_state]. rewrite map_app, <- IH, <- load_linear_loaded.
  destruct (load_linear (hidden_prefix k0) l sd) as [[? ?] ?].
  by destruct (load_hidden (S k0) ls sd) as [[? ?] ?].
Qed.

(** X19: whether it returns or raises, [load_state_dict] leaves the model
    with the same keys and dropout probability, and with every parameter
    replaced by the entries found under its key when their shape is the
    parameter's and unchanged otherwise. *)
Theorem load_state_dict_parameters (m : network) (sd : state_dict) :
  network_state_dict (load_state_dict m sd).1
  = map (loaded_param sd) (network_state_dict m)
  /\ keys (network_state_dict (load_state_dict m sd).1)
     = keys (network_state_dict m)
  /\ dropout (load_state_dict m sd).1 = dropout m.
Proof.
  assert (Hsd : network_state_dict (load_state_dict m sd).1
                = map (loaded_param sd) (network_state_dict m)).
  { unfold load_state_dict, network_state_dict.
    rewrite map_app, <- load_hidden_loaded, <- load_linear_loaded.
    destruct (load_hidden 0 (hidden_layers m) sd) as [[? ?] ?].
    by destruct (load_linear "output" (output m) sd) as [[? ?] ?]. }
  split; [exact Hsd|]. split.
  - rewrite Hsd. unfold keys. rewrite map_map. by apply map_ext.
  - unfold load_state_dict.
    destruct (load_hidden 0 (hidden_layers m) sd) as [[? ?] ?].
    by destruct (load_linear "output" (output m) sd) as [[? ?] ?].
Qed.

(** The keys of a state dict. *)
Lemma hidden_state_keys (ls : list Linear) :
  forall k0 key,
    In key (keys (hidden_state k0 ls)) ->
    exists j p, (k0 <= j)%nat /\ key = hidden_prefix j +:+ String "." p.
Proof.
  induction ls as [|l ls IH]; intros k0 key; [done|].
  unfold keys. cbn [hidden_state linear_state app map fst].
  intros [<-|[<-|Hin]].
  - by exists k0, "weight".
  - by exists k0, "bias".
  - destruct (IH (S k0) key Hin) as (j & p & Hj & ->). exists j, p.
    split; [lia|done].
Qed.

Lemma hidden_state_NoDup (tl : state_dict) (ls : list Linear) :
  NoDup (keys tl) ->
  (forall k p, ~ In (hidden_prefix k +:+ String "." p) (keys tl)) ->
  forall k0, NoDup (keys (hidden_state k0 ls ++ tl)).
Proof.
  intros Htl Hout. induction ls as [|l ls IH]; intros k0; [done|].
  unfold keys in *. cbn [hidden_state linear_state app map fst].
  assert (Hfresh : forall p,
            ~ In (hidden_prefix k0 +:+ String "." p)
                 (map fst (hidden_state (S k0) ls ++ tl))).
  { intros p. rewrite map_app, in_app_iff. intros [Hin|Hin].
    - apply hidden_state_keys in Hin as (j & q & Hj & Heq).
      apply hidden_key_inj in Heq as [-> _]. lia.
    - by apply Hout in Hin. }
  apply NoDup_cons_2.
  { rewrite list_elem_of_In; cbn [In]. intros [Heq|Hin].
    - symmetry in Heq. by apply weight_key_not_bias_key in Heq.
    - by apply (Hfresh "weight") in Hin. }
  apply NoDup_cons_2; [|apply IH].
  rewrite list_elem_of_In. apply (Hfresh "bias").
Qed.

(** X20: the state dict of a network has two entries per layer under
    pairwise distinct keys: ['hidden_layers.k.weight'] and
    ['hidden_layers.k.bias'] hold the parameters of hidden layer [k], and
    ['output.weight'] and ['output.bias'] those of the output layer. *)
Theorem state_dict_entries (m : network) :
  let sd := network_state_dict m in
  NoDup (keys sd)
  /\ length sd = (2 * (length (hidden_layers m) + 1))%nat
  /\ (forall k l, hidden_layers m !! k = Some l ->
        get ("hidden_layers." +:+ pretty k +:+ ".weight") sd
          = Some (weight l)
        /\ get ("hidden_layers." +:+ pretty k +:+ ".bias") sd
          = Some (bias l))
  /\ get "output.weight" sd = Some (weight (output m))
  /\ get "output.bias" sd = Some (bias (output m)).
Proof.
  intros sd. subst sd. unfold network_state_dict. split; [|split; [|split]].
  - apply hidden_state_NoDup.
    + unfold keys. cbn. apply NoDup_cons_2; [|apply NoDup_singleton].
      by rewrite list_elem_of_singleton.
    + intros k p [Heq|[Heq|[]]]; symmetry in Heq;
        by apply (hidden_key_not_output k (String "." p)) in Heq.
  - rewrite length_app. cbn [linear_state length].
    assert (Hlen : forall ls k0,
              length (hidden_state k0 ls) = (2 * length ls)%nat).
    { induction ls as [|l ls IH]; intros k0; [done|].
      cbn [hidden_state linear_state app length]. rewrite IH. lia. }
    rewrite Hlen. lia.
  - intros k l Hl.
    destruct (get_hidden_state (linear_state "output" (output m))
                (hidden_layers m) 0 k l Hl) as [Hw Hb].
    cbn [Nat.add] in Hw, Hb. unfold hidden_prefix in Hw, Hb.
    by rewrite !string_app_assoc in Hw, Hb.
  - apply (get_output (output m) (hidden_layers m) 0).
Qed.

Lemma load_hidden_own (sd : state_dict) (ls : list Linear) :
  forall k0,
    (forall j l, ls !! j = Some l ->
       get (hidden_prefix (k0 + j) +:+ ".weight") sd = Some (weight l)
       /\ get (hidden_prefix (k0 + j) +:+ ".bias") sd = Some (bias l)) ->
    load_hidden k0 ls sd = (ls, [], []).
Proof.
  induction ls as [|l ls IH]; intros k0 Hget; [done|].
  cbn [load_hidden]. destruct (Hget 0%nat l eq_refl) as [Hw Hb].
  rewrite Nat.add_0_r in Hw, Hb. unfold load_linear.
  rewrite (load_param_fits _ _ _ _ Hw), (load_param_fits _ _ _ _ Hb) by done.
  rewrite IH; [by destruct l|].
  intros j l' Hl'. rewrite Nat.add_succ_comm. by apply (Hget (S j)).
Qed.

Lemma load_own_state_dict (m : network) :
  load_state_dict m (network_state_dict m)
  = (m, ret (mk_IncompatibleKeys [] [])).
Proof.
  unfold load_state_dict.
  rewrite load_hidden_own by (intros j l Hl; by apply get_hidden_state).
  destruct (get_output (output m) (hidden_layers m) 0) as [Hw Hb].
  fold (network_state_dict m) in Hw, Hb. unfold load_linear.
  rewrite (load_param_fits _ _ _ _ Hw), (load_param_fits _ _ _ _ Hb) by done.
  rewrite no_unexpected_keys. cbn. by destruct m as [hs [] d].
Qed.

Section MoreWorldFacts.
Context {G : Type} `{Generator G}.

(** X21: cells [7] and [10] return, the variable [state_dict] then holds
    the state dict of the model, the model is unchanged, and loading that
    state dict into the model returns the empty lists of incompatible keys
    and leaves every parameter as it was, for any network. *)
Theorem state_dict_round_trip (nb : notebook G) :
  let nb' := (cell_10 (cell_7 nb).2).2 in
  let sd := network_state_dict (model nb) in
  (cell_7 nb).1 = ret tt /\ (cell_10 (cell_7 nb).2).1 = ret tt
  /\ state_dict_var nb' = Some (py_state_dict sd)
  /\ model nb' = model nb
  /\ load_state_dict (model nb') sd
     = (model nb, ret (mk_IncompatibleKeys [] [])).
Proof.
  unfold cell_7, cell_10, torch_save, torch_load.
  cbn [os model state_dict_var checkpoint_var files rng fst snd].
  rewrite lookup_insert_eq. cbn [fst snd model state_dict_var].
  do 4 (split; [done|]). apply load_own_state_dict.
Qed.

(** X23: when there is no file ['checkpoint.pth'], [load_checkpoint]
    raises [FileNotFoundError] for that path and changes nothing; cells
    [22] and [10] raise it too and leave the notebook's variables as they
    were. *)
Theorem load_checkpoint_without_file (nb : notebook G) :
  files (os nb) !! "checkpoint.pth" = None ->
  load_checkpoint "checkpoint.pth" (os nb)
  = (raise (FileNotFoundError "checkpoint.pth"), os nb)
  /\ cell_22 nb = (raise (FileNotFoundError "checkpoint.pth"), nb)
  /\ cell_10 nb = (raise (FileNotFoundError "checkpoint.pth"), nb).
Proof.
  intros Hfile.
  assert (Hload : load_checkpoint "checkpoint.pth" (os nb)
                  = (raise (FileNotFoundError "checkpoint.pth"), os nb)).
  { unfold load_checkpoint, mbind at 1, torch_load. by rewrite Hfile. }
  split; [exact Hload|]. unfold cell_22, cell_10, torch_load.
  rewrite Hload, Hfile. by destruct nb.
Qed.


(** X25: [load_checkpoint] never writes: whatever the path and the files,
    and whether it returns or raises, the files are afterwards as they
    were. *)
Theorem load_checkpoint_reads_only (path : string) (w : world G) :
  files (load_checkpoint path w).2 = files w.
Proof.
  unfold load_checkpoint, mbind, torch_load, lift.
  destruct (files w !! path) as [[| | | |d]|]; try done.
  cbn [getitem bind ret].
  destruct (d !! "input_size") as [[i| | | |]|]; try done.
  destruct (d !! "output_size") as [[o| | | |]|]; try done.
  destruct (d !! "hidden_layers") as [[| |hidden| |]|]; try done.
  cbn [as_int as_list bind ret].
  destruct (Network_returns i o hidden w) as (n & g & -> & _).
  destruct (d !! "state_dict") as [[| | |sd|]|]; try done.
  cbn [as_state_dict bind ret].
  by destruct (load_state_dict n sd) as [m' [e|r]].
Qed.

End MoreWorldFacts.

Lemma load_checkpoint_without_file_witness :
  files (os notebook_0) !! "checkpoint.pth" = None
  /\ cell_22 notebook_0
     = (raise (FileNotFoundError "checkpoint.pth"), notebook_0).
Proof.
  assert (Hfile : files (os notebook_0) !! "checkpoint.pth" = None)
    by reflexivity.
  split; [exact Hfile|].
  exact (proj1 (proj2 (load_checkpoint_without_file notebook_0 Hfile))).
Defined.


Lemma is_Linear_inv (i o : nat) (l : Linear) :
  is_Linear i o l ->
  exists ws bs, l = mk_Linear i o (mk_tensor [o; i] ws) (mk_tensor [o] bs).
Proof.
  destruct l as [i' o' [sw ws] [sb bs]]. unfold is_Linear. cbn.
  intros (-> & -> & -> & ->). by exists ws, bs.
Qed.

Lemma three_hidden_layers (i o h1 h2 h3 : nat) (m : network) :
  has_architecture i o [h1; h2; h3] m ->
  exists a b c d,
    is_Linear i h1 a /\ is_Linear h1 h2 b /\ is_Linear h2 h3 c
    /\ is_Linear h3 o d /\ m = mk_network [a; b; c] d (dropout m).
Proof.
  destruct m as [[|a [|b [|c [|]]]] d p]; intros [Hh Ho]; cbn in Hh; try tauto.
  destruct Hh as (Ha & Hb & Hc & _). by exists a, b, c, d.
Qed.

(** X22: cell [19]: loading the state dict of a network with hidden sizes
    512, 256 and 128 into one with hidden sizes 400, 200 and 100 raises the
    error with exactly the seven size mismatches that the notebook shows, in
    that order; ['output.bias'], whose shape fits, is copied all the same
    and the other parameters of the model are unchanged. *)
Theorem size_mismatch_report (trained model : network) :
  has_architecture 784 10 [512; 256; 128] trained ->
  has_architecture 784 10 [400; 200; 100] model ->
  let r := load_state_dict model (network_state_dict trained) in
  r.2 = raise (RuntimeError_loading_state_dict report_of_cell_19)
  /\ bias (output r.1) = bias (output trained)
  /\ weight (output r.1) = weight (output model)
  /\ hidden_layers r.1 = hidden_layers model.
Proof.
  intros Ht Hm.
  destruct (three_hidden_layers _ _ _ _ _ _ Ht)
    as (a & b & c & d & Ha & Hb & Hc & Hd & ->).
  destruct (three_hidden_layers _ _ _ _ _ _ Hm)
    as (a' & b' & c' & d' & Ha' & Hb' & Hc' & Hd' & ->).
  apply is_Linear_inv in Ha as (wa & ba & ->), Hb as (wb & bb & ->),
    Hc as (wc & bc & ->), Hd as (wd & bd & ->).
  apply is_Linear_inv in Ha' as (wa' & ba' & ->), Hb' as (wb' & bb' & ->),
    Hc' as (wc' & bc' & ->), Hd' as (wd' & bd' & ->).
  vm_compute. done.
Qed.

Lemma size_mismatch_report_witness :
  let trained := zero_Network 784 10 512 256 128 in
  let model := zero_Network 784 10 400 200 100 in
  (has_architecture 784 10 [512; 256; 128] trained
   /\ has_architecture 784 10 [400; 200; 100] model)
  /\ (load_state_dict model (network_state_dict trained)).2
     = raise (RuntimeError_loading_state_dict report_of_cell_19).
Proof.
  intros trained model.
  assert (Ht : has_architecture 784 10 [512; 256; 128] trained)
    by (repeat split; reflexivity).
  assert (Hm : has_architecture 784 10 [400; 200; 100] model)
    by (repeat split; reflexivity).
  split; [by split|]. exact (proj1 (size_mismatch_report trained model Ht Hm)).
Defined.

Lemma load_param_same_outcome (key : string) (p1 p2 : tensor)
  (sd : state_dict) :
  shape p1 = shape p2 ->
  same_outcome (load_param key p1 sd) (load_param key p2 sd).
Proof.
  intros Hs. unfold same_outcome, load_param. rewrite Hs.
  destruct (get key sd) as [t|]; [|done]. by destruct (shape_eqb _ _).
Qed.

Lemma load_linear_same_outcome (prefix : string) (i o : nat) (l1 l2 : Linear)
  (sd : state_dict) :
  is_Linear i o l1 -> is_Linear i o l2 ->
  same_outcome (load_linear prefix l1 sd) (load_linear prefix l2 sd).
Proof.
  intros (Hi1 & Ho1 & Hw1 & Hb1) (Hi2 & Ho2 & Hw2 & Hb2).
  unfold load_linear.
  destruct (load_param_same_outcome (prefix +:+ ".weight") (weight l1)
              (weight l2) sd) as (He & Hm & Hw); [congruence|].
  destruct (load_param_same_outcome (prefix +:+ ".bias") (bias l1)
              (bias l2) sd) as (He' & Hm' & Hb); [congruence|].
  destruct (load_param (prefix +:+ ".weight") (weight l1) sd) as [[w1 e1] m1].
  destruct (load_param (prefix +:+ ".weight") (weight l2) sd) as [[w2 e2] m2].
  destruct (load_param (prefix +:+ ".bias") (bias l1) sd) as [[b1 e1'] m1'].
  destruct (load_param (prefix +:+ ".bias") (bias l2) sd) as [[b2 e2'] m2'].
  unfold same_outcome. cbn [fst snd] in *. subst e2 m2 e2' m2'.
  do 2 (split; [done|]).
  intros [-> ->]%app_eq_nil [-> ->]%app_eq_nil.
  rewrite Hw, Hb by done. congruence.
Qed.

Lemma load_hidden_same_outcome (sd : state_dict) (hidden : list nat) :
  forall (width k0 : nat) (ls1 ls2 : list Linear),
    hidden_chain width hidden ls1 -> hidden_chain width hidden ls2 ->
    same_outcome (load_hidden k0 ls1 sd) (load_hidden k0 ls2 sd).
Proof.
  induction hidden as [|h hidden IH]; intros width k0 [|l1 ls1] [|l2 ls2] H1 H2;
    try done.
  destruct H1 as [Hl1 H1], H2 as [Hl2 H2]. cbn [load_hidden].
  destruct (load_linear_same_outcome (hidden_prefix k0) width h l1 l2 sd Hl1 Hl2)
    as (He & Hm & Hl).
  destruct (IH h (S k0) ls1 ls2 H1 H2) as (He' & Hm' & Hls).
  destruct (load_linear (hidden_prefix k0) l1 sd) as [[a1 e1] m1].
  destruct (load_linear (hidden_prefix k0) l2 sd) as [[a2 e2] m2].
  destruct (load_hidden (S k0) ls1 sd) as [[r1 e1'] m1'].
  destruct (load_hidden (S k0) ls2 sd) as [[r2 e2'] m2'].
  unfold same_outcome. cbn [fst snd] in *. subst e2 m2 e2' m2'.
  do 2 (split; [done|]).
  intros [-> ->]%app_eq_nil [-> ->]%app_eq_nil.
  by rewrite Hl, Hls.
Qed.

(** Networks of one architecture and dropout probability: loading into
    either raises the same, or returns the same network. *)
Lemma load_state_dict_same_outcome (i o : nat) (hidden : list nat)
  (n1 n2 : network) (sd : state_dict) :
  has_architecture i o hidden n1 -> has_architecture i o hidden n2 ->
  dropout n1 = dropout n2 ->
  (let (model, r) := load_state_dict n1 sd in let* _ := r in ret model)
  = (let (model, r) := load_state_dict n2 sd in let* _ := r in ret model).
Proof.
  intros [Hh1 Ho1] [Hh2 Ho2] Hd. unfold load_state_dict.
  rewrite (keys_network_state_dict n1 n2)
    by (by rewrite (hidden_chain_length _ _ _ Hh1),
                   (hidden_chain_length _ _ _ Hh2)).
  destruct (load_hidden_same_outcome sd hidden i 0 _ _ Hh1 Hh2)
    as (He & Hm & Hhs).
  destruct (load_linear_same_outcome "output" _ _ _ _ sd Ho1 Ho2)
    as (He' & Hm' & Hout).
  destruct (load_hidden 0 (hidden_layers n1) sd) as [[hs1 e1] m1].
  destruct (load_hidden 0 (hidden_layers n2) sd) as [[hs2 e2] m2].
  destruct (load_linear "output" (output n1) sd) as [[o1 e1'] m1'].
  destruct (load_linear "output" (output n2) sd) as [[o2 e2'] m2'].
  cbn [fst snd] in *. subst e2 m2 e2' m2'. rewrite Hd.
  destruct m1 as [|k ks]; [|done]. destruct m1' as [|k ks]; [|done].
  cbn [app report].
  destruct (report unexpected_key_s _) as [|u us]; [|done].
  destruct e1 as [|e es]; [|done]. destruct e1' as [|e es]; [|done].
  cbn. by rewrite Hhs, Hout.
Qed.

Section Independence.
Context {G : Type} `{Generator G}.

(** X26: what [load_checkpoint] returns or raises does not depend on the
    state of the random number generator: every parameter of a model it
    returns comes from the checkpoint, none from the random initial values
    that the constructor drew. *)
Theorem load_checkpoint_overwrites_initialisation (path : string)
  (saved : gmap string pyobj) (g1 g2 : G) :
  (load_checkpoint path (mk_world saved g1)).1
  = (load_checkpoint path (mk_world saved g2)).1.
Proof.
  unfold load_checkpoint, mbind, torch_load, lift. cbn [files].
  destruct (saved !! path) as [[| | | |d]|]; try done.
  cbn [getitem bind ret].
  destruct (d !! "input_size") as [[i| | | |]|]; try done.
  destruct (d !! "output_size") as [[o| | | |]|]; try done.
  destruct (d !! "hidden_layers") as [[| |hidden| |]|]; try done.
  cbn [as_int as_list bind ret].
  destruct (Network_returns i o hidden (mk_world saved g1))
    as (n1 & g1' & -> & Ha1 & Hd1).
  destruct (Network_returns i o hidden (mk_world saved g2))
    as (n2 & g2' & -> & Ha2 & Hd2).
  destruct (d !! "state_dict") as [[| | |sd|]|]; try done.
  cbn [as_state_dict bind ret].
  pose proof (load_state_dict_same_outcome i o hidden n1 n2 sd Ha1 Ha2
                ltac:(congruence)) as Hsame.
  destruct (load_state_dict n1 sd) as [m1 [e1|r1]],
           (load_state_dict n2 sd) as [m2 [e2|r2]]; cbn in *; congruence.
Qed.

End Independence.

End Part6LoadingFacts.
